(** * Go Blinds LLC SMS service: a shallow embedding of [src/server.js]

    The service is one Express application with a process-wide
    [conversations] Map, two helpers ([generateAIResponse], [sendSMS]) and
    four routes.  The embedding keeps that shape:

    - a JavaScript string is held as the UTF-8 bytes of its code points, so
      a byte below 128 is an ASCII character and a run of bytes from 128 on is
      a run of other characters; what [toUpperCase] makes of such a run is
      read from the engine's Unicode tables, which the request meets like any
      other external;
    - the [conversations] Map is a [gmap string Conversation];
    - the handlers are written in a small state-and-exception monad whose
      state survives a [throw], as a JavaScript heap does;
    - the completion API, the SMS transport and the clock are the
      request's [Externals]: whatever they answer is an input;
    - a request runs from its first statement to its answer without another
      request running in between: the interleavings that [await] allows are
      outside the model;
    - phone numbers are texts, as the transport and the trigger post them: a
      Map key that is not a string is outside the model. *)

From Stdlib Require Import Ascii.
From stdpp Require Import base option list strings gmap fin_maps.

(** ** Text *)

Module Text.

(** The line feed and the double quote, by character code. *)
Definition LF : string := String (ascii_of_nat 10) EmptyString.
Definition DQUOTE : string := String (ascii_of_nat 34) EmptyString.

(** A byte below 128: an ASCII character. *)
Definition is_ascii (c : ascii) : bool := (nat_of_ascii c <? 128)%nat.

(** [String.prototype.toUpperCase] on one ASCII character: [a]..[z] move
    to [A]..[Z], everything else stays. *)
Definition upper_ascii (c : ascii) : ascii :=
  let n := nat_of_ascii c in
  if (97 <=? n)%nat && (n <=? 122)%nat then ascii_of_nat (n - 32) else c.

(** What a pending run of non-ASCII characters becomes: nothing when there
    is none, and otherwise what the engine's tables [beyond] say (a run may
    well become ASCII capitals: the dotless i becomes [I], the long s [S]). *)
Definition flush (beyond : string -> string) (run : string) : string :=
  match run with
  | EmptyString => EmptyString
  | String _ _ => beyond run
  end.

(** [String.prototype.toUpperCase].  The conversion goes character by
    character, without regard to the neighbours: ASCII characters by
    [upper_ascii], each maximal run of other characters by [beyond]. *)
Fixpoint toUpperCase_from (beyond : string -> string) (run s : string) : string :=
  match s with
  | EmptyString => flush beyond run
  | String c s' =>
      if is_ascii c
      then flush beyond run
           +:+ String (upper_ascii c) (toUpperCase_from beyond EmptyString s')
      else toUpperCase_from beyond (run +:+ String c EmptyString) s'
  end.

Definition toUpperCase (beyond : string -> string) (s : string) : string :=
  toUpperCase_from beyond EmptyString s.

(** [needle] is an initial segment of [s]. *)
Fixpoint startsWith (s needle : string) {struct needle} : bool :=
  match needle, s with
  | EmptyString, _ => true
  | String _ _, EmptyString => false
  | String a needle', String b s' =>
      if Ascii.eqb a b then startsWith s' needle' else false
  end.

(** [String.prototype.includes]: [needle] occurs in [s] at some position. *)
Fixpoint includes (s needle : string) : bool :=
  startsWith s needle ||
  match s with
  | EmptyString => false
  | String _ s' => includes s' needle
  end.

(** The white space [String.prototype.trim] removes, by UTF-8 length.  One
    byte: tab, line feed, vertical tab, form feed, carriage return, space. *)
Definition is_space (c : ascii) : bool :=
  let n := nat_of_ascii c in
  ((9 <=? n)%nat && (n <=? 13)%nat) || (n =? 32)%nat.

(** Two bytes: the no-break space U+00A0. *)
Definition is_space2 (c1 c2 : ascii) : bool :=
  (nat_of_ascii c1 =? 194)%nat && (nat_of_ascii c2 =? 160)%nat.

(** Three bytes: U+1680, U+2000 to U+200A, the line and paragraph
    separators U+2028 and U+2029, U+202F, U+205F, U+3000 and the byte order
    mark U+FEFF. *)
Definition is_space3 (c1 c2 c3 : ascii) : bool :=
  let n1 := nat_of_ascii c1 in
  let n2 := nat_of_ascii c2 in
  let n3 := nat_of_ascii c3 in
  ((n1 =? 225)%nat && (n2 =? 154)%nat && (n3 =? 128)%nat)
  || ((n1 =? 226)%nat && (n2 =? 128)%nat
      && (((128 <=? n3)%nat && (n3 <=? 138)%nat)
          || (n3 =? 168)%nat || (n3 =? 169)%nat || (n3 =? 175)%nat))
  || ((n1 =? 226)%nat && (n2 =? 129)%nat && (n3 =? 159)%nat)
  || ((n1 =? 227)%nat && (n2 =? 128)%nat && (n3 =? 128)%nat)
  || ((n1 =? 239)%nat && (n2 =? 187)%nat && (n3 =? 191)%nat).

Fixpoint trimStart (s : string) : string :=
  match s with
  | EmptyString => EmptyString
  | String c1 s1 =>
      if is_space c1 then trimStart s1
      else
        match s1 with
        | EmptyString => s
        | String c2 s2 =>
            if is_space2 c1 c2 then trimStart s2
            else
              match s2 with
              | EmptyString => s
              | String c3 s3 => if is_space3 c1 c2 c3 then trimStart s3 else s
              end
        end
  end.

(** Nothing but white space. *)
Definition only_space (s : string) : bool :=
  match trimStart s with
  | EmptyString => true
  | String _ _ => false
  end.

(** Drops the trailing white space: the text is cut where nothing but
    white space follows. *)
Fixpoint trimEnd (s : string) : string :=
  match s with
  | EmptyString => EmptyString
  | String c s' => if only_space s then EmptyString else String c (trimEnd s')
  end.

Definition trim (s : string) : string := trimEnd (trimStart s).

(** [Array.prototype.join]. *)
Fixpoint join (sep : string) (parts : list string) : string :=
  match parts with
  | [] => EmptyString
  | [p] => p
  | p :: rest => p +:+ sep +:+ join sep rest
  end.

(** [Array.prototype.slice(-n)]: the last [n] elements, all of them when
    the array is shorter. *)
Definition sliceLast {A} (n : nat) (l : list A) : list A :=
  drop (length l - n) l.

End Text.

(** ** Data model *)

(** Milliseconds since the epoch, as [new Date()] reads them. *)
Definition Time := N.

Inductive Direction := inbound | outbound.

Definition direction_text (d : Direction) : string :=
  match d with inbound => "inbound" | outbound => "outbound" end.

(** One transcript entry: [{ direction, message, timestamp }]. *)
Record Message := mkMessage {
  direction : Direction;
  message : string;
  timestamp : Time;
}.

(** One value of the [conversations] Map:
    [{ name, context, started, messages }]. *)
Record Conversation := mkConversation {
  name : string;
  context : string;
  started : Time;
  messages : list Message;
}.

(** What route 4 puts in its answer for one phone number.  [lastMessage] is
    [messages[messages.length - 1]], which is [undefined] on an empty
    array. *)
Record Summary := mkSummary {
  sum_name : string;
  sum_context : string;
  sum_started : Time;
  messageCount : nat;
  lastMessage : option Message;
}.

#[global] Instance Direction_eq_dec : EqDecision Direction.
Proof. solve_decision. Defined.

#[global] Instance Message_eq_dec : EqDecision Message.
Proof. solve_decision. Defined.

#[global] Instance Conversation_eq_dec : EqDecision Conversation.
Proof. solve_decision. Defined.

(** ** The outside world *)

(** What a handler can throw: a [TypeError] of the language (a property
    read on [undefined] or [null]) or the rejection of an SDK promise. *)
Inductive Exn :=
  | TypeError (detail : string)
  | ServiceError (detail : string).

(** The argument of [openai.chat.completions.create].  The temperature 0.7
    is kept in tenths. *)
Record ChatMessage := mkChatMessage {
  role : string;
  content : string;
}.

Record ChatRequest := mkChatRequest {
  model : string;
  chat_messages : list ChatMessage;
  max_tokens : nat;
  temperature_tenths : nat;
}.

(** What the completion promise settles to.  A resolved response carries
    its [choices]; a choice is its [message.content], [None] when the message
    or its content is missing or [null]. *)
Inductive Completion :=
  | CompletionRejected (e : Exn)
  | CompletionResolved (choices : list (option string)).

(** The argument of [twilioClient.messages.create]. *)
Record SmsRequest := mkSmsRequest {
  sms_body : string;
  sms_from : option string;
  sms_to : string;
}.

(** What the transport promise settles to: a receipt (the message sid) or a
    rejection. *)
Inductive Delivery :=
  | DeliveryRejected (e : Exn)
  | DeliveryResolved (sid : string).

(** Everything one request observes from outside: the configured sender
    number, the clock (the value of the k-th [new Date()] of the request), the
    answers of the two SDKs, and the Unicode tables of the engine, as the
    function [unicode_upper] that upper-cases a run of non-ASCII characters.
    Nothing is assumed of any of them. *)
Record Externals := mkExternals {
  TWILIO_PHONE_NUMBER : option string;
  clock : nat -> Time;
  openai_create : ChatRequest -> Completion;
  twilio_create : SmsRequest -> Delivery;
  unicode_upper : string -> string;
}.

(** What the process does to the outside, in order: console lines and SDK
    calls. *)
Inductive Event :=
  | ConsoleLog (line : string)
  | ConsoleLogFields (label : string) (fields : list (string * string))
  | ConsoleError (label : string) (e : Exn)
  | CompletionCall (req : ChatRequest)
  | SmsCall (req : SmsRequest).

(** ** The HTTP response under construction *)

(** What a handler answers with: the string given to [res.send], or one of
    the objects given to [res.json]. *)
Inductive Payload :=
  | Sent (text : string)
  | JsonInitiated (success : bool) (msg : string) (initialMessage : string)
  | JsonError (error : string)
  | JsonConversation (c : Conversation)
  | JsonListing (all : gmap string Summary).

(** [contentType] is the header as the handler set it with [res.set]:
    [None] leaves the choice to Express.  [body] is [None] until [res.send] or
    [res.json] runs. *)
Record Response := mkResponse {
  statusCode : nat;
  contentType : option string;
  body : option Payload;
}.

(** A fresh [res]: status 200, nothing set, nothing sent. *)
Definition fresh_res : Response :=
  {| statusCode := 200; contentType := None; body := None |}.

(** ** The handler monad *)

(** The state a handler runs in: the process-wide Map, the trace of
    effects, the response object and the number of [Date]s constructed so
    far in the request. *)
Record St := mkSt {
  conversations : gmap string Conversation;
  trace : list Event;
  res : Response;
  dates : nat;
}.

Inductive Outcome (A : Type) :=
  | Returned (a : A)
  | Thrown (e : Exn).
Arguments Returned {A} a.
Arguments Thrown {A} e.

(** A computation reads the externals, transforms the state and returns or
    throws.  The state reached when it throws is kept: nothing is rolled
    back. *)
Definition M (A : Type) : Type := Externals -> St -> Outcome A * St.

#[global] Instance M_ret : MRet M := fun A a _ st => (Returned a, st).

#[global] Instance M_bind : MBind M := fun A B k m ext st =>
  match m ext st with
  | (Returned a, st') => k a ext st'
  | (Thrown e, st') => (Thrown e, st')
  end.

Definition throw {A} (e : Exn) : M A := fun _ st => (Thrown e, st).

(** [try { body } catch (error) { handler }]. *)
Definition try_catch {A} (body : M A) (handler : Exn -> M A) : M A :=
  fun ext st =>
    match body ext st with
    | (Returned a, st') => (Returned a, st')
    | (Thrown e, st') => handler e ext st'
    end.

Definition externals : M Externals := fun ext st => (Returned ext, st).
Definition get_state : M St := fun _ st => (Returned st, st).
Definition modify_state (f : St -> St) : M unit := fun _ st => (Returned tt, f st).

Definition emit (ev : Event) : M unit :=
  modify_state (fun st => mkSt (conversations st) (trace st ++ [ev]) (res st) (dates st)).

Definition console_log (line : string) : M unit := emit (ConsoleLog line).
Definition console_log_fields (label : string) (fields : list (string * string)) : M unit :=
  emit (ConsoleLogFields label fields).
Definition console_error (label : string) (e : Exn) : M unit :=
  emit (ConsoleError label e).

(** [new Date()]. *)
Definition new_Date : M Time :=
  ext ← externals;
  st ← get_state;
  modify_state (fun st => mkSt (conversations st) (trace st) (res st) (S (dates st)));;
  mret (clock ext (dates st)).

(** [conversations.get(phone)] and [conversations.set(phone, c)]. *)
Definition conversations_get (phone : string) : M (option Conversation) :=
  st ← get_state; mret (conversations st !! phone).

Definition conversations_set (phone : string) (c : Conversation) : M unit :=
  modify_state (fun st =>
    mkSt (<[phone := c]> (conversations st)) (trace st) (res st) (dates st)).

(** [conversation.messages.push(m)], for the [conversation] object held by
    the Map under [phone]: the handlers only ever push to the object they
    have just read from (or stored into) the Map under that key, so the write
    goes to the Map entry.  Without such an object ([conversation] is
    [undefined]) reading [.messages] is a [TypeError]. *)
Definition push_message (c : Conversation) (m : Message) : Conversation :=
  mkConversation (name c) (context c) (started c) (messages c ++ [m]).

Definition messages_push (phone : string) (m : Message) : M unit :=
  st ← get_state;
  match conversations st !! phone with
  | None => throw (TypeError "Cannot read properties of undefined (reading 'messages')")
  | Some c => conversations_set phone (push_message c m)
  end.

(** [res.set('Content-Type', v)], [res.status(n)], [res.send(b)] and
    [res.json(b)]. *)
Definition update_res (f : Response -> Response) : M unit :=
  modify_state (fun st => mkSt (conversations st) (trace st) (f (res st)) (dates st)).

Definition res_set_content_type (v : string) : M unit :=
  update_res (fun r => mkResponse (statusCode r) (Some v) (body r)).
Definition res_status (n : nat) : M unit :=
  update_res (fun r => mkResponse n (contentType r) (body r)).
Definition res_send (b : Payload) : M unit :=
  update_res (fun r => mkResponse (statusCode r) (contentType r) (Some b)).
Definition res_json (b : Payload) : M unit :=
  update_res (fun r => mkResponse (statusCode r) (contentType r) (Some b)).

(** ** The two helpers *)

(** The [context] argument of [generateAIResponse]: both properties are
    optional. *)
Record Context := mkContext {
  businessContext : option string;
  conversationHistory : option string;
}.

(** The last line of the system prompt:
    [context.businessContext ? `Business context: ...` : ''].  A missing
    property and the empty string are both falsy. *)
Definition business_line (context : Context) : string :=
  match businessContext context with
  | Some (String c rest) => "Business context: " +:+ String c rest
  | _ => ""
  end.

(** The template literal of [generateAIResponse], line breaks and
    indentation included. *)
Definition systemPrompt (context : Context) : string :=
  "You are a helpful customer service assistant for Go Blinds LLC, a window blind installation company. "
  +:+ Text.LF +:+
  "    Keep responses under 160 characters for SMS. "
  +:+ Text.LF +:+
  "    Be friendly, professional, and concise."
  +:+ Text.LF +:+
  "    Always end with " +:+ Text.DQUOTE +:+ "Reply STOP to opt out" +:+ Text.DQUOTE
  +:+ " unless the message is very short."
  +:+ Text.LF +:+
  "    Focus on appointment scheduling, confirmations, and service questions."
  +:+ Text.LF +:+
  "    " +:+ business_line context.

Definition completion_request (customerMessage : string) (context : Context) : ChatRequest :=
  {| model := "gpt-3.5-turbo";
     chat_messages :=
       [ {| role := "system"; content := systemPrompt context |};
         {| role := "user"; content := customerMessage |} ];
     max_tokens := 50;
     temperature_tenths := 7 |}.

(** [await openai.chat.completions.create(req)]: the call is made, and its
    rejection is thrown. *)
Definition await_completion (req : ChatRequest) : M (list (option string)) :=
  ext ← externals;
  emit (CompletionCall req);;
  match openai_create ext req with
  | CompletionRejected e => throw e
  | CompletionResolved choices => mret choices
  end.

(** [response.choices[0].message.content.trim()]: a [TypeError] when there
    is no first choice or it has no content. *)
Definition first_content_trimmed (choices : list (option string)) : M string :=
  match choices with
  | Some text :: _ => mret (Text.trim text)
  | _ => throw (TypeError "Cannot read properties of undefined")
  end.

Definition fallbackMessage : string :=
  "Go Blinds LLC: Thanks for your message. We'll get back to you soon. Reply STOP to opt out.".

Definition generateAIResponse (customerMessage : string) (context : Context) : M string :=
  try_catch
    (choices ← await_completion (completion_request customerMessage context);
     first_content_trimmed choices)
    (fun error =>
       console_error "OpenAI error:" error;;
       mret fallbackMessage).

(** [await twilioClient.messages.create(req)]. *)
Definition await_delivery (req : SmsRequest) : M string :=
  ext ← externals;
  emit (SmsCall req);;
  match twilio_create ext req with
  | DeliveryRejected e => throw e
  | DeliveryResolved sid => mret sid
  end.

Definition sendSMS (to message : string) : M string :=
  try_catch
    (ext ← externals;
     result ← await_delivery
       {| sms_body := message; sms_from := TWILIO_PHONE_NUMBER ext; sms_to := to |};
     console_log ("SMS sent to " +:+ to +:+ ": " +:+ message);;
     mret result)
    (fun error =>
       console_error "Twilio SMS error:" error;;
       throw error).

(** ** Route 1: [POST /api/initiate-contact] *)

Record InitiateRequest := mkInitiateRequest {
  customer_phone : string;
  customer_name : string;
  trigger_context : string;
}.

Definition initiate_contact (req : InitiateRequest) : M unit :=
  try_catch
    (let customer_phone := customer_phone req in
     let customer_name := customer_name req in
     let trigger_context := trigger_context req in
     console_log_fields "Initiating contact:"
       [("customer_phone", customer_phone); ("customer_name", customer_name);
        ("trigger_context", trigger_context)];;
     started ← new_Date;
     conversations_set customer_phone
       {| name := customer_name; context := trigger_context;
          started := started; messages := [] |};;
     initialMessage ← generateAIResponse
       ("Customer " +:+ customer_name +:+ " needs help with: " +:+ trigger_context
        +:+ ". Send a friendly greeting and ask how we can help.")
       {| businessContext := Some trigger_context; conversationHistory := None |};
     sendSMS customer_phone initialMessage;;
     timestamp ← new_Date;
     messages_push customer_phone
       {| direction := outbound; message := initialMessage; timestamp := timestamp |};;
     res_json (JsonInitiated true "Contact initiated" initialMessage))
    (fun error =>
       console_error "Error initiating contact:" error;;
       res_status 500;;
       res_json (JsonError "Failed to initiate contact")).

(** ** Route 2: [POST /api/sms/webhook] *)

(** The form fields of the webhook.  [From] is the sender's number as the
    transport posts it, a text; [Body] is [None] when the field is missing (or
    is not a string): [messageBody.toUpperCase()] is then a [TypeError].
    Requests whose [From] is not a string are not modelled. *)
Record WebhookRequest := mkWebhookRequest {
  From : string;
  Body : option string;
}.

Definition confirmMessage : string :=
  "Go Blinds LLC: Perfect! Your appointment is confirmed. We'll send a reminder the day before. Reply STOP to opt out.".

Definition rescheduleMessage : string :=
  "Go Blinds LLC: No problem! Please call us at [your phone] to reschedule or reply with your preferred times. Reply STOP to opt out.".

Definition emptyTwiML : string := "<Response></Response>".

(** How a template literal prints a value that may be [undefined]. *)
Definition interpolate (v : option string) : string :=
  match v with Some s => s | None => "undefined" end.

(** [`${m.direction}: ${m.message}`] over the last three messages, joined by
    line feeds. *)
Definition history_line (m : Message) : string :=
  direction_text (direction m) +:+ ": " +:+ message m.

Definition contextString (msgs : list Message) : string :=
  Text.join Text.LF (history_line <$> Text.sliceLast 3 msgs).

(** The object the local variable [conversation] refers to, read back
    through the Map entry it is stored under. *)
Definition conversation_of (phone : string) : M Conversation :=
  found ← conversations_get phone;
  match found with
  | Some c => mret c
  | None => throw (TypeError "Cannot read properties of undefined")
  end.

(** [let conversation = conversations.get(customerPhone); if (!conversation)
    { conversation = {...}; conversations.set(customerPhone, conversation) }] *)
Definition get_or_create (customerPhone : string) : M unit :=
  found ← conversations_get customerPhone;
  match found with
  | Some _ => mret tt
  | None =>
      started ← new_Date;
      conversations_set customerPhone
        {| name := "Customer"; context := "General inquiry";
           started := started; messages := [] |}
  end.

(** The statements after the two keyword branches. *)
Definition converse (customerPhone messageBody : string) : M unit :=
  get_or_create customerPhone;;
  received ← new_Date;
  messages_push customerPhone
    {| direction := inbound; message := messageBody; timestamp := received |};;
  conversation ← conversation_of customerPhone;
  let contextString := contextString (messages conversation) in
  aiResponse ← generateAIResponse messageBody
    {| businessContext := Some (context conversation);
       conversationHistory := Some contextString |};
  sendSMS customerPhone aiResponse;;
  sent ← new_Date;
  messages_push customerPhone
    {| direction := outbound; message := aiResponse; timestamp := sent |};;
  res_set_content_type "text/xml";;
  res_send (Sent emptyTwiML).

(** The [try] block of the webhook.  Both keyword tests start with
    [messageBody.toUpperCase()], a [TypeError] when [messageBody] is
    [undefined]. *)
Definition sms_webhook_try (req : WebhookRequest) : M unit :=
  let customerPhone := From req in
  console_log ("Incoming SMS from " +:+ customerPhone +:+ ": " +:+ interpolate (Body req));;
  match Body req with
  | None => throw (TypeError "Cannot read properties of undefined (reading 'toUpperCase')")
  | Some messageBody =>
      ext ← externals;
      if Text.includes (Text.toUpperCase (unicode_upper ext) messageBody) "CONFIRM" then
        sendSMS customerPhone confirmMessage;;
        res_set_content_type "text/xml";;
        res_send (Sent emptyTwiML)
      else if Text.includes (Text.toUpperCase (unicode_upper ext) messageBody) "RESCHEDULE"
      then
        sendSMS customerPhone rescheduleMessage;;
        res_set_content_type "text/xml";;
        res_send (Sent emptyTwiML)
      else
        converse customerPhone messageBody
  end.

Definition sms_webhook (req : WebhookRequest) : M unit :=
  try_catch (sms_webhook_try req)
    (fun error =>
       console_error "Error handling incoming SMS:" error;;
       res_status 500;;
       res_send (Sent emptyTwiML)).

(** ** Routes 3 and 4: inspection *)

Definition get_conversation (phone : string) : M unit :=
  conversation ← conversations_get phone;
  match conversation with
  | None => res_status 404;; res_json (JsonError "Conversation not found")
  | Some c => res_json (JsonConversation c)
  end.

(** [array[i]] for an integer [i]: [undefined] outside the array, so also
    at [-1]. *)
Definition item_at {A} (l : list A) (i : Z) : option A :=
  if (i <? 0)%Z then None else l !! Z.to_nat i.

Definition summarise (conversation : Conversation) : Summary :=
  {| sum_name := name conversation;
     sum_context := context conversation;
     sum_started := started conversation;
     messageCount := length (messages conversation);
     lastMessage :=
       item_at (messages conversation) (Z.of_nat (length (messages conversation)) - 1) |}.

(** One turn of the [for ... of conversations.entries()] loop:
    [allConversations[phone] = { ... }].  On a plain object the key
    [__proto__] is the prototype accessor: assigning an object to it replaces
    the prototype and adds no property, so the serialised answer has no such
    key. *)
Definition list_step (phone : string) (conversation : Conversation)
    (allConversations : gmap string Summary) : gmap string Summary :=
  if decide (phone = "__proto__") then allConversations
  else <[phone := summarise conversation]> allConversations.

(** The keys of a Map are distinct, so the order of the loop does not show
    in the object it builds. *)
Definition allConversations (store : gmap string Conversation) : gmap string Summary :=
  map_fold list_step ∅ store.

Definition list_conversations : M unit :=
  st ← get_state;
  res_json (JsonListing (allConversations (conversations st))).

(** ** Serving a request *)

(** A request starts with a fresh [res] and its own clock readings; the Map
    and the trace are the process's.  The state after the handler holds the
    response it built. *)
Definition arriving (before : St) : St :=
  mkSt (conversations before) (trace before) fresh_res 0.

Definition serve (handler : M unit) (ext : Externals) (before : St) : St :=
  snd (handler ext (arriving before)).

Definition InitiateContact (req : InitiateRequest) := serve (initiate_contact req).
Definition HandleInbound (req : WebhookRequest) := serve (sms_webhook req).
Definition GetConversation (phone : string) := serve (get_conversation phone).
Definition ListConversations := serve list_conversations.

(** The process at start-up: [new Map()], nothing logged. *)
Definition startup : St := mkSt ∅ [] fresh_res 0.

(** The messages handed to the SMS transport, in order. *)
Definition dispatched (events : list Event) : list (string * string) :=
  omap (fun ev => match ev with
                  | SmsCall req => Some (sms_to req, sms_body req)
                  | _ => None
                  end) events.

(** The completion requests made, in order. *)
Definition composed (events : list Event) : list ChatRequest :=
  omap (fun ev => match ev with CompletionCall req => Some req | _ => None end) events.

(** The transcript the Map holds for a phone number, empty when it holds
    none. *)
Definition transcript (st : St) (phone : string) : list Message :=
  match conversations st !! phone with
  | Some c => messages c
  | None => []
  end.

(** ** The application as a whole *)

(** The requests the four routes answer, and the routing of Express by
    method and path. *)
Inductive Request :=
  | PostInitiateContact (req : InitiateRequest)
  | PostSmsWebhook (req : WebhookRequest)
  | GetConversationOf (phone : string)
  | GetConversations.

Definition route (r : Request) : M unit :=
  match r with
  | PostInitiateContact req => initiate_contact req
  | PostSmsWebhook req => sms_webhook req
  | GetConversationOf phone => get_conversation phone
  | GetConversations => list_conversations
  end.

Definition handle (r : Request) : Externals -> St -> St := serve (route r).

(** Requests served one after the other, each with the externals it meets. *)
Fixpoint run_all (requests : list (Request * Externals)) (st : St) : St :=
  match requests with
  | [] => st
  | (r, ext) :: later => run_all later (handle r ext st)
  end.

(** ** Vocabulary of the properties *)

(** A text of ASCII characters only. *)
Fixpoint ascii_text (s : string) : bool :=
  match s with
  | EmptyString => true
  | String c s' => Text.is_ascii c && ascii_text s'
  end.

(** The ASCII letters of a text in capitals, every other byte as it is. *)
Fixpoint capitals (s : string) : string :=
  match s with
  | EmptyString => EmptyString
  | String c s' => String (Text.upper_ascii c) (capitals s')
  end.

(** Letter case folded the other way. *)
Definition lower_ascii (c : ascii) : ascii :=
  let n := nat_of_ascii c in
  if (65 <=? n)%nat && (n <=? 90)%nat then ascii_of_nat (n + 32) else c.

Fixpoint toLowerCase (s : string) : string :=
  match s with
  | EmptyString => EmptyString
  | String c s' => String (lower_ascii c) (toLowerCase s')
  end.

(** [body] contains [word] in any letter case: some segment of [body] is
    [word] once both are folded to lower case. *)
Definition contains_in_any_case (word body : string) : Prop :=
  ∃ before segment after,
    body = before +:+ segment +:+ after ∧ toLowerCase segment = toLowerCase word.

(** A 2xx status. *)
Definition success_shaped (r : Response) : Prop :=
  200 ≤ statusCode r < 300.

(** The completion call fails: the promise is rejected (time-out,
    authentication, quota, ...) or it resolves to a response without a usable
    first choice (a malformed response). *)
Definition completion_failed (c : Completion) : Prop :=
  match c with
  | CompletionRejected _ => True
  | CompletionResolved (Some _ :: _) => False
  | CompletionResolved _ => True
  end.

(** The conversation a non-keyword message is added to: the one the Map
    holds for [phone], or the one created at time [now]. *)
Definition conversation_or_new (st : St) (phone : string) (now : Time) : Conversation :=
  match conversations st !! phone with
  | Some c => c
  | None => mkConversation "Customer" "General inquiry" now []
  end.

(** The number of [Date]s constructed once that conversation is at hand. *)
Definition dates_after_lookup (st : St) (phone : string) : nat :=
  match conversations st !! phone with
  | Some _ => dates st
  | None => S (dates st)
  end.

(** [st] with further events on its trace and nothing else changed. *)
Definition logged (st : St) (new : list Event) : St :=
  mkSt (conversations st) (trace st ++ new) (res st) (dates st).

(** An inbound message that spells neither keyword, in whatever letter
    case; any outbound message. *)
Definition free_of_keywords (m : Message) : bool :=
  match direction m with
  | inbound =>
      negb (Text.includes (capitals (message m)) "CONFIRM")
      && negb (Text.includes (capitals (message m)) "RESCHEDULE")
  | outbound => true
  end.

(** The request is a trigger for [phone]. *)
Definition triggers (phone : string) (r : Request) : Prop :=
  match r with
  | PostInitiateContact req => customer_phone req = phone
  | _ => False
  end.

(** The text [generateAIResponse] returns, read off the answer of the
    completion API. *)
Definition reply_text (ext : Externals) (customerMessage : string) (context : Context) : string :=
  match openai_create ext (completion_request customerMessage context) with
  | CompletionResolved (Some first :: _) => Text.trim first
  | _ => fallbackMessage
  end.

(** The transport takes every message. *)
Definition accepts_all (ext : Externals) : Prop :=
  ∀ sms, ∃ sid, twilio_create ext sms = DeliveryResolved sid.

(** A body on which neither keyword test of the webhook fires, with the
    tables the request meets. *)
Definition plain (ext : Externals) (text : string) : Prop :=
  Text.includes (Text.toUpperCase (unicode_upper ext) text) "CONFIRM" = false
  ∧ Text.includes (Text.toUpperCase (unicode_upper ext) text) "RESCHEDULE" = false.

(** Webhook requests from one number, one per body, each with the
    externals it meets. *)
Definition messages_from (phone : string) (bodies : list (string * Externals))
    : list (Request * Externals) :=
  (fun sent => (PostSmsWebhook (mkWebhookRequest phone (Some sent.1)), sent.2)) <$> bodies.

(** ** Sample worlds *)

Definition sample_clock (k : nat) : Time := (1700000000000 + N.of_nat k)%N.

(** Two letters beyond ASCII, in UTF-8: the dotless i U+0131 and the long s
    U+017F. *)
Definition dotless_i : string :=
  String (ascii_of_nat 196) (String (ascii_of_nat 177) EmptyString).
Definition long_s : string :=
  String (ascii_of_nat 197) (String (ascii_of_nat 191) EmptyString).

(** A corner of the Unicode tables: the dotless i becomes [I], the long s
    becomes [S]; any other run is left as it is. *)
Definition sample_unicode_upper (run : string) : string :=
  if decide (run = dotless_i) then "I"
  else if decide (run = long_s) then "S"
  else run.

(** Both services answer. *)
Definition ext_up : Externals :=
  {| TWILIO_PHONE_NUMBER := Some "+15550100";
     clock := sample_clock;
     openai_create := fun _ => CompletionResolved [Some " Hello! How can we help? "];
     twilio_create := fun _ => DeliveryResolved "SM0001";
     unicode_upper := sample_unicode_upper |}.

(** The completion API is out of quota; the transport answers. *)
Definition ext_completion_down : Externals :=
  {| TWILIO_PHONE_NUMBER := Some "+15550100";
     clock := sample_clock;
     openai_create := fun _ => CompletionRejected (ServiceError "429 quota exceeded");
     twilio_create := fun _ => DeliveryResolved "SM0001";
     unicode_upper := sample_unicode_upper |}.

(** The completion API answers; the transport rejects every message. *)
Definition ext_transport_down : Externals :=
  {| TWILIO_PHONE_NUMBER := Some "+15550100";
     clock := sample_clock;
     openai_create := fun _ => CompletionResolved [Some " Hello! How can we help? "];
     twilio_create := fun _ => DeliveryRejected (ServiceError "transport unreachable");
     unicode_upper := sample_unicode_upper |}.

(** A process that already talks to Jane. *)
Definition jane : Conversation :=
  {| name := "Jane"; context := "blind install quote"; started := 1699999990000%N;
     messages := [ mkMessage outbound "Hi Jane, how can we help?" 1699999990500%N ] |}.

Definition with_jane : St :=
  mkSt {[ "+15551234567" := jane ]} [] fresh_res 0.

(** The completion API answers with white space only. *)
Definition ext_blank_reply : Externals :=
  {| TWILIO_PHONE_NUMBER := Some "+15550100";
     clock := sample_clock;
     openai_create := fun _ => CompletionResolved [Some "   "];
     twilio_create := fun _ => DeliveryResolved "SM0001";
     unicode_upper := sample_unicode_upper |}.

(** A morning of traffic: a trigger for Jane, her answer, a confirmation, a
    stranger whose reply cannot be delivered, and two inspections. *)
Definition sample_traffic : list (Request * Externals) :=
  [ (PostInitiateContact (mkInitiateRequest "+15551234567" "Jane" "blind install quote"), ext_up);
    (PostSmsWebhook (mkWebhookRequest "+15551234567" (Some "Do you do shutters?")), ext_up);
    (PostSmsWebhook (mkWebhookRequest "+15551234567" (Some "confirm")), ext_up);
    (PostSmsWebhook (mkWebhookRequest "+15557654321" (Some "hello?")), ext_transport_down);
    (GetConversationOf "+15551234567", ext_up);
    (GetConversations, ext_up) ].

(** Unfolds the monad and its primitive operations, leaving the helpers and
    the SDK answers in place. *)
Ltac run :=
  cbv beta iota zeta delta
    [mbind M_bind mret M_ret throw try_catch externals get_state modify_state
     emit console_log console_log_fields console_error new_Date
     conversations_get conversations_set messages_push push_message
     update_res res_set_content_type res_status res_send res_json logged];
  cbn [conversations trace res dates statusCode contentType body fst snd interpolate].

(** * Properties *)

(** ** Text *)

Lemma append_nil (s : string) : "" +:+ s = s.
Proof. reflexivity. Qed.

Lemma append_cons (c : ascii) (s t : string) : String c s +:+ t = String c (s +:+ t).
Proof. reflexivity. Qed.

Lemma capitals_append (s t : string) :
  capitals (s +:+ t) = capitals s +:+ capitals t.
Proof.
  induction s as [|c s IH]; [reflexivity|].
  rewrite append_cons. cbn [capitals]. rewrite append_cons. by f_equal.
Qed.

Lemma upper_of_lower (c : ascii) : Text.upper_ascii (lower_ascii c) = Text.upper_ascii c.
Proof. by destruct c as [[] [] [] [] [] [] [] []]. Qed.

Lemma capitals_of_lower (s : string) :
  capitals (toLowerCase s) = capitals s.
Proof.
  induction s as [|c s IH]; [reflexivity|].
  cbn [toLowerCase capitals]. by rewrite upper_of_lower, IH.
Qed.

(** Two texts that agree in lower case agree in upper case. *)
Lemma same_letters_upper (s t : string) :
  toLowerCase s = toLowerCase t → capitals s = capitals t.
Proof.
  intros H. by rewrite <-(capitals_of_lower s), <-(capitals_of_lower t), H.
Qed.

Lemma startsWith_append (needle rest : string) :
  Text.startsWith (needle +:+ rest) needle = true.
Proof.
  induction needle as [|c needle IH]; [reflexivity|].
  rewrite append_cons. cbn [Text.startsWith]. by rewrite Ascii.eqb_refl.
Qed.

Lemma includes_append (before needle after : string) :
  Text.includes (before +:+ needle +:+ after) needle = true.
Proof.
  induction before as [|c before IH].
  - rewrite append_nil. destruct (needle +:+ after) eqn:E; cbn [Text.includes];
      rewrite <-E, startsWith_append; reflexivity.
  - rewrite append_cons. cbn [Text.includes]. rewrite IH. apply orb_true_r.
Qed.

Lemma startsWith_inv (s needle : string) :
  Text.startsWith s needle = true → ∃ rest, s = needle +:+ rest.
Proof.
  revert s. induction needle as [|c needle IH]; intros s H.
  - by exists s.
  - destruct s as [|d s]; [discriminate|]. cbn [Text.startsWith] in H.
    destruct (Ascii.eqb c d) eqn:E; [|discriminate].
    apply Ascii.eqb_eq in E as ->. destruct (IH s H) as [rest ->]. by exists rest.
Qed.

Lemma includes_inv (s needle : string) :
  Text.includes s needle = true → ∃ before after, s = before +:+ needle +:+ after.
Proof.
  induction s as [|c s IH]; cbn [Text.includes]; intros H.
  - rewrite orb_false_r in H. apply startsWith_inv in H as [rest Hs].
    exists "", rest. by rewrite append_nil.
  - apply orb_true_iff in H as [H|H].
    + apply startsWith_inv in H as [rest Hs]. exists "", rest. by rewrite append_nil.
    + destruct (IH H) as (before & after & ->). by exists (String c before), after.
Qed.

(** A text that contains a word in any letter case contains its capitals
    once in capitals itself. *)
Lemma capitals_include (word body : string) :
  contains_in_any_case word body →
  Text.includes (capitals body) (capitals word) = true.
Proof.
  intros (before & segment & after & -> & Hsame).
  rewrite !capitals_append, (same_letters_upper _ _ Hsame).
  apply includes_append.
Qed.

(** A text cut in two after upper-casing was cut in two before. *)
Lemma capitals_split (s a b : string) :
  capitals s = a +:+ b →
  ∃ a' b', s = a' +:+ b' ∧ capitals a' = a ∧ capitals b' = b.
Proof.
  revert s. induction a as [|c a IH]; intros s H.
  - by exists "", s.
  - destruct s as [|d s]; [discriminate|].
    rewrite append_cons in H. cbn [capitals] in H. injection H as Hc Hs.
    destruct (IH s Hs) as (a' & b' & -> & Ha & Hb).
    exists (String d a'), b'. cbn [capitals]. by rewrite Hc, Ha.
Qed.

Lemma lower_of_upper (c : ascii) : lower_ascii (Text.upper_ascii c) = lower_ascii c.
Proof. by destruct c as [[] [] [] [] [] [] [] []]. Qed.

Lemma toLowerCase_of_capitals (s : string) :
  toLowerCase (capitals s) = toLowerCase s.
Proof.
  induction s as [|c s IH]; [reflexivity|].
  cbn [toLowerCase capitals]. by rewrite lower_of_upper, IH.
Qed.

(** And conversely. *)
Lemma capitals_include_only (word body : string) :
  Text.includes (capitals body) (capitals word) = true →
  contains_in_any_case word body.
Proof.
  intros H. apply includes_inv in H as (before & after & H).
  apply capitals_split in H as (before' & rest & -> & _ & H).
  apply capitals_split in H as (segment & after' & -> & Hseg & _).
  exists before', segment, after'. split; [done|].
  by rewrite <-(toLowerCase_of_capitals segment), Hseg, toLowerCase_of_capitals.
Qed.


Lemma append_assoc (s t u : string) : (s +:+ t) +:+ u = s +:+ t +:+ u.
Proof. induction s as [|c s IH]; [done|]. by rewrite !append_cons, IH. Qed.

(** An ASCII character closes the pending run and starts afresh. *)
Lemma toUpperCase_from_ascii (beyond : string → string) (run : string) (c : ascii)
    (s : string) :
  Text.is_ascii c = true →
  Text.toUpperCase_from beyond run (String c s)
  = Text.flush beyond run +:+ String (Text.upper_ascii c) (Text.toUpperCase beyond s).
Proof. intros Hc. cbn [Text.toUpperCase_from]. by rewrite Hc. Qed.

Lemma toUpperCase_from_before_ascii (beyond : string → string) (run before : string)
    (c : ascii) (rest : string) :
  Text.is_ascii c = true →
  Text.toUpperCase_from beyond run (before +:+ String c rest)
  = Text.toUpperCase_from beyond run before
      +:+ String (Text.upper_ascii c) (Text.toUpperCase beyond rest).
Proof.
  intros Hc. revert run. induction before as [|d before IH]; intros run.
  - rewrite append_nil. by apply toUpperCase_from_ascii.
  - rewrite append_cons. cbn [Text.toUpperCase_from].
    destruct (Text.is_ascii d); [|apply IH].
    unfold Text.toUpperCase in IH. by rewrite IH, append_assoc, append_cons.
Qed.

(** On ASCII text the tables are not consulted. *)
Lemma toUpperCase_ascii_text (beyond : string → string) (text rest : string) :
  ascii_text text = true →
  Text.toUpperCase beyond (text +:+ rest) = capitals text +:+ Text.toUpperCase beyond rest.
Proof.
  induction text as [|c text IH]; [done|].
  cbn [ascii_text]. intros [Hc Htext]%andb_true_iff.
  rewrite !append_cons. unfold Text.toUpperCase at 1.
  rewrite (toUpperCase_from_ascii _ _ _ _ Hc). cbn [Text.flush capitals].
  by rewrite append_nil, append_cons, (IH Htext).
Qed.

Lemma is_ascii_lower (c : ascii) : Text.is_ascii (lower_ascii c) = Text.is_ascii c.
Proof. by destruct c as [[] [] [] [] [] [] [] []]. Qed.

Lemma ascii_text_lower (s : string) : ascii_text (toLowerCase s) = ascii_text s.
Proof.
  induction s as [|c s IH]; [done|]. cbn [toLowerCase ascii_text].
  by rewrite is_ascii_lower, IH.
Qed.

(** The keyword test of the webhook fires on every text that contains the
    keyword in any letter case, whatever the tables say about the rest of the
    text. *)
Lemma keyword_test_fires (beyond : string → string) (word body : string) :
  ascii_text word = true →
  contains_in_any_case word body →
  Text.includes (Text.toUpperCase beyond body) (capitals word) = true.
Proof.
  intros Hword (before & segment & after & -> & Hsame).
  assert (ascii_text segment = true) as Hsegment
    by (by rewrite <-ascii_text_lower, Hsame, ascii_text_lower).
  rewrite <-(same_letters_upper _ _ Hsame).
  destruct segment as [|c segment]; [by destruct (Text.toUpperCase _ _)|].
  cbn [ascii_text] in Hsegment. apply andb_true_iff in Hsegment as [Hc Hsegment].
  rewrite append_cons. unfold Text.toUpperCase at 1.
  rewrite (toUpperCase_from_before_ascii _ _ _ _ _ Hc).
  rewrite (toUpperCase_ascii_text _ _ _ Hsegment), <-append_cons.
  change (String (Text.upper_ascii c) (capitals segment)) with (capitals (String c segment)).
  apply includes_append.
Qed.

(** So a text that spells a keyword fires the test of the webhook. *)
Lemma spelled_keyword_fires (beyond : string → string) (word body : string) :
  ascii_text word = true →
  Text.includes (capitals body) (capitals word) = true →
  Text.includes (Text.toUpperCase beyond body) (capitals word) = true.
Proof. intros Hword Hin. by apply keyword_test_fires, capitals_include_only. Qed.

(** The model on small inputs. *)

Example toUpperCase_mixed (beyond : string → string) :
  Text.toUpperCase beyond "Yes, confirm 2pm!" = "YES, CONFIRM 2PM!".
Proof. reflexivity. Qed.

Example toUpperCase_dotless_i :
  Text.toUpperCase sample_unicode_upper ("conf" +:+ dotless_i +:+ "rm") = "CONFIRM".
Proof. reflexivity. Qed.

Example toUpperCase_long_s :
  Text.toUpperCase sample_unicode_upper ("Can we re" +:+ long_s +:+ "chedule?")
  = "CAN WE RESCHEDULE?".
Proof. reflexivity. Qed.

Example trim_no_break_space :
  Text.trim (String (ascii_of_nat 194) (String (ascii_of_nat 160) "Hello!")
             +:+ String (ascii_of_nat 194) (String (ascii_of_nat 160) ""))
  = "Hello!".
Proof. reflexivity. Qed.

Example trim_keeps_inner_space : Text.trim " a  b " = "a  b".
Proof. reflexivity. Qed.

Example includes_inside : Text.includes "PLEASE RESCHEDULE ME" "RESCHEDULE" = true.
Proof. reflexivity. Qed.

Example includes_absent : Text.includes "WHAT ARE YOUR HOURS" "CONFIRM" = false.
Proof. reflexivity. Qed.

Example trim_both_ends : Text.trim "  Hello there. " = "Hello there.".
Proof. reflexivity. Qed.

Example sliceLast_short : Text.sliceLast 3 [1; 2] = [1; 2].
Proof. reflexivity. Qed.

Example sliceLast_long : Text.sliceLast 3 [1; 2; 3; 4; 5] = [3; 4; 5].
Proof. reflexivity. Qed.

Example summarise_empty :
  summarise (mkConversation "Jane" "quote" 5%N [])
  = mkSummary "Jane" "quote" 5%N 0 None.
Proof. reflexivity. Qed.

Example trigger_then_inspect :
  let st := InitiateContact (mkInitiateRequest "+15551234567" "Jane" "blind install quote")
              ext_up startup in
  res st = mkResponse 200 None
             (Some (JsonInitiated true "Contact initiated" "Hello! How can we help?"))
  ∧ direction <$> transcript st "+15551234567" = [outbound]
  ∧ statusCode (res (GetConversation "+10000000000" ext_up st)) = 404
  ∧ body (res (GetConversation "+10000000000" ext_up st))
    = Some (JsonError "Conversation not found").
Proof. cbv zeta. repeat split; vm_compute; reflexivity. Qed.

(** ** The helpers, run *)

Section Helpers.

Context (ext : Externals) (st : St).

Lemma sendSMS_resolved (to text sid : string) :
  twilio_create ext (mkSmsRequest text (TWILIO_PHONE_NUMBER ext) to) = DeliveryResolved sid →
  sendSMS to text ext st =
    (Returned sid,
     logged st [SmsCall (mkSmsRequest text (TWILIO_PHONE_NUMBER ext) to);
                ConsoleLog ("SMS sent to " +:+ to +:+ ": " +:+ text)]).
Proof.
  intros H. unfold sendSMS, await_delivery. run. rewrite H. run.
  by rewrite <-app_assoc.
Qed.

Lemma sendSMS_rejected (to text : string) (e : Exn) :
  twilio_create ext (mkSmsRequest text (TWILIO_PHONE_NUMBER ext) to) = DeliveryRejected e →
  sendSMS to text ext st =
    (Thrown e,
     logged st [SmsCall (mkSmsRequest text (TWILIO_PHONE_NUMBER ext) to);
                ConsoleError "Twilio SMS error:" e]).
Proof.
  intros H. unfold sendSMS, await_delivery. run. rewrite H. run.
  by rewrite <-app_assoc.
Qed.

Lemma generateAIResponse_resolved (customerMessage : string) (context : Context)
    (text : string) (others : list (option string)) :
  openai_create ext (completion_request customerMessage context)
    = CompletionResolved (Some text :: others) →
  generateAIResponse customerMessage context ext st =
    (Returned (Text.trim text),
     logged st [CompletionCall (completion_request customerMessage context)]).
Proof.
  intros H. unfold generateAIResponse, await_completion, first_content_trimmed.
  run. rewrite H. by run.
Qed.

Lemma generateAIResponse_failed (customerMessage : string) (context : Context) :
  completion_failed (openai_create ext (completion_request customerMessage context)) →
  ∃ error,
    generateAIResponse customerMessage context ext st =
      (Returned fallbackMessage,
       logged st [CompletionCall (completion_request customerMessage context);
                  ConsoleError "OpenAI error:" error]).
Proof.
  intros H. unfold generateAIResponse, await_completion, first_content_trimmed.
  run. destruct (openai_create ext _) as [e|[|[text|] others]]; cbn in H;
    try done; run; eexists; by rewrite <-app_assoc.
Qed.

(** Whatever the completion API does, the composer returns a text, touches
    neither the Map nor the response, and sends no SMS. *)
Lemma generateAIResponse_returns (customerMessage : string) (context : Context) :
  ∃ text new,
    generateAIResponse customerMessage context ext st = (Returned text, logged st new)
    ∧ dispatched new = []
    ∧ composed new = [completion_request customerMessage context].
Proof.
  destruct (openai_create ext (completion_request customerMessage context))
    as [e|[|[text|] others]] eqn:H.
  2,4: edestruct generateAIResponse_failed as [error ->]; [by rewrite H|by eauto].
  - edestruct generateAIResponse_failed as [error ->]; [by rewrite H|by eauto].
  - rewrite (generateAIResponse_resolved _ _ _ _ H). by eauto.
Qed.

End Helpers.

(** ** The non-keyword path, run *)

Lemma converse_run (phone text : string) (ext : Externals) (st : St) :
  let c0 := conversation_or_new st phone (clock ext (dates st)) in
  let d := dates_after_lookup st phone in
  let inb := mkMessage inbound text (clock ext d) in
  ∃ reply new,
    dispatched new = []
    ∧ composed new =
        [completion_request text
           (mkContext (Some (context c0)) (Some (contextString (messages c0 ++ [inb]))))]
    ∧ converse phone text ext st =
        let sms := mkSmsRequest reply (TWILIO_PHONE_NUMBER ext) phone in
        match twilio_create ext sms with
        | DeliveryRejected e =>
            (Thrown e,
             mkSt (<[phone := push_message c0 inb]> (conversations st))
                  (trace st ++ new ++ [SmsCall sms; ConsoleError "Twilio SMS error:" e])
                  (res st) (S d))
        | DeliveryResolved sid =>
            (Returned tt,
             mkSt (<[phone := push_message (push_message c0 inb)
                                (mkMessage outbound reply (clock ext (S d)))]>
                     (conversations st))
                  (trace st ++ new
                     ++ [SmsCall sms;
                         ConsoleLog ("SMS sent to " +:+ phone +:+ ": " +:+ reply)])
                  (mkResponse (statusCode (res st)) (Some "text/xml")
                     (Some (Sent emptyTwiML)))
                  (S (S d)))
        end.
Proof.
  intros c0 d inb. subst c0 d inb. unfold conversation_or_new, dates_after_lookup.
  unfold converse, get_or_create, conversation_of. run.
  destruct (conversations st !! phone) as [c|] eqn:Hc; run;
    rewrite ?lookup_insert_eq, ?Hc; run; rewrite ?lookup_insert_eq; run.
  all: match goal with
       | |- context [generateAIResponse ?m ?k ?e ?s] =>
           destruct (generateAIResponse_returns e s m k) as (reply & new & -> & Hd & Hk)
       end; run.
  all: exists reply, new; split; [done|split; [done|]].
  all: cbv zeta;
       destruct (twilio_create ext (mkSmsRequest reply (TWILIO_PHONE_NUMBER ext) phone))
         as [e|sid] eqn:Hsms.
  all: first [rewrite (sendSMS_rejected _ _ _ _ _ Hsms)
             |rewrite (sendSMS_resolved _ _ _ _ _ Hsms)];
       run; rewrite ?lookup_insert_eq; run;
       rewrite ?insert_insert_eq, <-?app_assoc; reflexivity.
Qed.

Lemma dispatched_app (a b : list Event) : dispatched (a ++ b) = dispatched a ++ dispatched b.
Proof. apply omap_app. Qed.

Lemma composed_app (a b : list Event) : composed (a ++ b) = composed a ++ composed b.
Proof. apply omap_app. Qed.

(** ** The webhook, path by path *)

(** A keyword branch: the fixed text goes to the transport; the Map is not
    touched, whatever the transport answers. *)
Lemma HandleInbound_keyword (req : WebhookRequest) (text fixed : string)
    (ext : Externals) (st : St) :
  Body req = Some text →
  (Text.includes (Text.toUpperCase (unicode_upper ext) text) "CONFIRM" = true ∧ fixed = confirmMessage)
  ∨ (Text.includes (Text.toUpperCase (unicode_upper ext) text) "CONFIRM" = false
     ∧ Text.includes (Text.toUpperCase (unicode_upper ext) text) "RESCHEDULE" = true
     ∧ fixed = rescheduleMessage) →
  HandleInbound req ext st =
    let incoming := ConsoleLog ("Incoming SMS from " +:+ From req +:+ ": " +:+ text) in
    let sms := mkSmsRequest fixed (TWILIO_PHONE_NUMBER ext) (From req) in
    match twilio_create ext sms with
    | DeliveryRejected e =>
        mkSt (conversations st)
             (trace st ++ [incoming; SmsCall sms; ConsoleError "Twilio SMS error:" e;
                           ConsoleError "Error handling incoming SMS:" e])
             (mkResponse 500 None (Some (Sent emptyTwiML))) 0
    | DeliveryResolved sid =>
        mkSt (conversations st)
             (trace st ++ [incoming; SmsCall sms;
                           ConsoleLog ("SMS sent to " +:+ From req +:+ ": " +:+ fixed)])
             (mkResponse 200 (Some "text/xml") (Some (Sent emptyTwiML))) 0
    end.
Proof.
  intros Hbody Hkey. unfold HandleInbound, serve, sms_webhook, sms_webhook_try, arriving.
  rewrite Hbody. cbv zeta. run.
  destruct Hkey as [[-> ->]|(-> & -> & ->)]; run.
  all: match goal with
       | |- context [twilio_create ?x ?sms] =>
           destruct (twilio_create x sms) as [e|sid] eqn:Hsms
       end.
  all: first [rewrite (sendSMS_rejected _ _ _ _ _ Hsms)
             |rewrite (sendSMS_resolved _ _ _ _ _ Hsms)];
       run; by rewrite <-?app_assoc.
Qed.

(** A request without a body text: the first keyword test throws. *)
Lemma HandleInbound_no_body (req : WebhookRequest) (ext : Externals) (st : St) :
  Body req = None →
  HandleInbound req ext st =
    mkSt (conversations st)
         (trace st ++
            [ConsoleLog ("Incoming SMS from " +:+ From req +:+ ": undefined");
             ConsoleError "Error handling incoming SMS:"
               (TypeError "Cannot read properties of undefined (reading 'toUpperCase')")])
         (mkResponse 500 None (Some (Sent emptyTwiML))) 0.
Proof.
  intros Hbody. unfold HandleInbound, serve, sms_webhook, sms_webhook_try, arriving.
  rewrite Hbody. run. by rewrite <-app_assoc.
Qed.

(** Any other text: the message is recorded, a reply is composed and handed
    to the transport, and recorded in turn when the transport took it. *)
Lemma HandleInbound_converse (req : WebhookRequest) (text : string)
    (ext : Externals) (st : St) :
  Body req = Some text →
  Text.includes (Text.toUpperCase (unicode_upper ext) text) "CONFIRM" = false →
  Text.includes (Text.toUpperCase (unicode_upper ext) text) "RESCHEDULE" = false →
  let phone := From req in
  let c0 := conversation_or_new st phone (clock ext 0) in
  let d := dates_after_lookup (arriving st) phone in
  let inb := mkMessage inbound text (clock ext d) in
  let incoming := ConsoleLog ("Incoming SMS from " +:+ phone +:+ ": " +:+ text) in
  ∃ reply new,
    dispatched new = []
    ∧ composed new =
        [completion_request text
           (mkContext (Some (context c0)) (Some (contextString (messages c0 ++ [inb]))))]
    ∧ HandleInbound req ext st =
        let sms := mkSmsRequest reply (TWILIO_PHONE_NUMBER ext) phone in
        match twilio_create ext sms with
        | DeliveryRejected e =>
            mkSt (<[phone := push_message c0 inb]> (conversations st))
                 (trace st ++ [incoming] ++ new
                    ++ [SmsCall sms; ConsoleError "Twilio SMS error:" e;
                        ConsoleError "Error handling incoming SMS:" e])
                 (mkResponse 500 None (Some (Sent emptyTwiML))) (S d)
        | DeliveryResolved sid =>
            mkSt (<[phone := push_message (push_message c0 inb)
                               (mkMessage outbound reply (clock ext (S d)))]>
                    (conversations st))
                 (trace st ++ [incoming] ++ new
                    ++ [SmsCall sms;
                        ConsoleLog ("SMS sent to " +:+ phone +:+ ": " +:+ reply)])
                 (mkResponse 200 (Some "text/xml") (Some (Sent emptyTwiML)))
                 (S (S d))
        end.
Proof.
  intros Hbody Hconfirm Hreschedule phone c0 d inb incoming.
  unfold HandleInbound, serve, sms_webhook, sms_webhook_try.
  rewrite Hbody. run. rewrite Hconfirm, Hreschedule. fold phone. run.
  destruct (converse_run phone text ext
              (mkSt (conversations (arriving st))
                    (trace (arriving st) ++ [incoming]) (res (arriving st))
                    (dates (arriving st))))
    as (reply & new & Hd & Hk & Hrun).
  exists reply, new. split; [done|]. split; [exact Hk|].
  unfold incoming in Hrun. rewrite Hrun. cbv zeta.
  destruct (twilio_create ext (mkSmsRequest reply (TWILIO_PHONE_NUMBER ext) phone));
    run; by rewrite <-?app_assoc.
Qed.

(** ** The trigger, run *)

Lemma InitiateContact_run (req : InitiateRequest) (ext : Externals) (st : St) :
  let phone := customer_phone req in
  let opened :=
    mkConversation (customer_name req) (trigger_context req) (clock ext 0) [] in
  let announced :=
    ConsoleLogFields "Initiating contact:"
      [("customer_phone", phone); ("customer_name", customer_name req);
       ("trigger_context", trigger_context req)] in
  ∃ reply new,
    dispatched new = []
    ∧ composed new =
        [completion_request
           ("Customer " +:+ customer_name req +:+ " needs help with: "
            +:+ trigger_context req
            +:+ ". Send a friendly greeting and ask how we can help.")
           (mkContext (Some (trigger_context req)) None)]
    ∧ InitiateContact req ext st =
        let sms := mkSmsRequest reply (TWILIO_PHONE_NUMBER ext) phone in
        match twilio_create ext sms with
        | DeliveryRejected e =>
            mkSt (<[phone := opened]> (conversations st))
                 (trace st ++ [announced] ++ new
                    ++ [SmsCall sms; ConsoleError "Twilio SMS error:" e;
                        ConsoleError "Error initiating contact:" e])
                 (mkResponse 500 None (Some (JsonError "Failed to initiate contact"))) 1
        | DeliveryResolved sid =>
            mkSt (<[phone := push_message opened (mkMessage outbound reply (clock ext 1))]>
                    (conversations st))
                 (trace st ++ [announced] ++ new
                    ++ [SmsCall sms;
                        ConsoleLog ("SMS sent to " +:+ phone +:+ ": " +:+ reply)])
                 (mkResponse 200 None (Some (JsonInitiated true "Contact initiated" reply))) 2
        end.
Proof.
  intros phone opened announced. subst opened announced.
  unfold InitiateContact, serve, initiate_contact, arriving. fold phone. run.
  match goal with
  | |- context [generateAIResponse ?m ?k ?e ?s] =>
      destruct (generateAIResponse_returns e s m k) as (reply & new & -> & Hd & Hk)
  end; run.
  exists reply, new. split; [done|]. split; [done|]. cbv zeta.
  destruct (twilio_create ext (mkSmsRequest reply (TWILIO_PHONE_NUMBER ext) phone))
    as [e|sid] eqn:Hsms.
  all: first [rewrite (sendSMS_rejected _ _ _ _ _ Hsms)
             |rewrite (sendSMS_resolved _ _ _ _ _ Hsms)];
       run; rewrite ?lookup_insert_eq; run;
       rewrite ?insert_insert_eq, <-?app_assoc; reflexivity.
Qed.

(** ** The listing *)

(** The object built by the loop of route 4, key by key. *)
Lemma allConversations_lookup (store : gmap string Conversation) (phone : string) :
  allConversations store !! phone =
    if decide (phone = "__proto__") then None else summarise <$> store !! phone.
Proof.
  unfold allConversations.
  apply (map_fold_weak_ind
           (fun (r : gmap string Summary) (m : gmap string Conversation) =>
              r !! phone =
                if decide (phone = "__proto__") then None else summarise <$> m !! phone)).
  - rewrite !lookup_empty. by case_decide.
  - intros i c m r Hfresh IH. unfold list_step.
    destruct (decide (i = "__proto__")) as [->|Hi].
    + rewrite IH. case_decide; [done|]. by rewrite lookup_insert_ne.
    + destruct (decide (i = phone)) as [->|Hne].
      * rewrite !lookup_insert_eq. by rewrite decide_False.
      * by rewrite !lookup_insert_ne.
Qed.

Lemma item_at_last {A} (l : list A) :
  item_at l (Z.of_nat (length l) - 1) = last l.
Proof.
  unfold item_at. destruct l as [|x l]; [reflexivity|].
  cbn [length]. destruct (Z.ltb_spec (Z.of_nat (S (length l)) - 1) 0) as [?|_]; [lia|].
  replace (Z.to_nat (Z.of_nat (S (length l)) - 1)) with (length l) by lia.
  rewrite last_lookup. reflexivity.
Qed.

Lemma ListConversations_run (ext : Externals) (st : St) :
  ListConversations ext st =
    mkSt (conversations st) (trace st)
         (mkResponse 200 None (Some (JsonListing (allConversations (conversations st))))) 0.
Proof. reflexivity. Qed.

(** * The specification's properties, C1 to C10 *)

(** ** C1: the composer's fallback *)

(** C1, as stated, fails: with the completion API out of quota the composer
    returns a text, but not the text
    [Thanks for your message. We'll get back to you soon. Reply STOP to opt out.]
    of the claim. *)
Lemma C1_fallback_is_not_the_quoted_text :
  completion_failed
    (openai_create ext_completion_down (completion_request "hi" (mkContext None None)))
  ∧ (generateAIResponse "hi" (mkContext None None) ext_completion_down startup).1
    ≠ Returned "Thanks for your message. We'll get back to you soon. Reply STOP to opt out.".
Proof. split; [exact I|]. vm_compute. discriminate. Qed.

(** C1, amended: for every customer message, context and state, when the
    completion call fails (the promise is rejected, or the response has no
    usable first choice), [generateAIResponse] returns, it does not throw; what
    it returns is exactly the fixed text that starts with [Go Blinds LLC: ];
    the failure is written to the console and nothing else changes. *)
Theorem C1_composer_falls_back (customerMessage : string) (context : Context)
    (ext : Externals) (st : St) :
  completion_failed (openai_create ext (completion_request customerMessage context)) →
  ∃ error,
    generateAIResponse customerMessage context ext st =
      (Returned
         "Go Blinds LLC: Thanks for your message. We'll get back to you soon. Reply STOP to opt out.",
       logged st [CompletionCall (completion_request customerMessage context);
                  ConsoleError "OpenAI error:" error]).
Proof. apply generateAIResponse_failed. Qed.

Lemma C1_composer_falls_back_witness :
  ∃ error,
    generateAIResponse "hi" (mkContext None None) ext_completion_down startup =
      (Returned
         "Go Blinds LLC: Thanks for your message. We'll get back to you soon. Reply STOP to opt out.",
       logged startup [CompletionCall (completion_request "hi" (mkContext None None));
                       ConsoleError "OpenAI error:" error]).
Proof.
  apply (C1_composer_falls_back "hi" (mkContext None None) ext_completion_down startup).
  simpl. exact I.
Defined.

(** ** C6 and C3: the keyword branches *)

(** C6: for every body that contains [confirm] in any letter case, the
    webhook hands exactly one message to the transport, the fixed confirmation
    text addressed to the sender, and leaves the whole Map as it was: no
    conversation is created and no transcript grows.  This holds whether the
    transport takes the message or rejects it. *)
Theorem C6_confirm_leaves_the_store (req : WebhookRequest) (text : string)
    (ext : Externals) (st : St) :
  Body req = Some text →
  contains_in_any_case "confirm" text →
  dispatched (trace (HandleInbound req ext st))
    = dispatched (trace st) ++ [(From req, confirmMessage)]
  ∧ conversations (HandleInbound req ext st) = conversations st.
Proof.
  intros Hbody Hin.
  pose proof (keyword_test_fires (unicode_upper ext) "confirm" text eq_refl Hin) as Hfire.
  change (capitals "confirm") with "CONFIRM" in Hfire.
  rewrite (HandleInbound_keyword req text confirmMessage ext st Hbody
             (or_introl (conj Hfire eq_refl))).
  cbv zeta. destruct (twilio_create ext _); cbn [trace conversations];
    rewrite dispatched_app; split; reflexivity.
Qed.

Lemma C6_confirm_leaves_the_store_witness :
  let req := mkWebhookRequest "+15551234567" (Some "Yes, I Confirm!") in
  dispatched (trace (HandleInbound req ext_up with_jane))
    = dispatched (trace with_jane) ++ [("+15551234567", confirmMessage)]
  ∧ conversations (HandleInbound req ext_up with_jane) = conversations with_jane.
Proof.
  apply (C6_confirm_leaves_the_store
           (mkWebhookRequest "+15551234567" (Some "Yes, I Confirm!"))
           "Yes, I Confirm!" ext_up with_jane).
  - reflexivity.
  - exists "Yes, I ", "Confirm", "!". split; reflexivity.
Defined.

(** C3, as stated, fails: a body may contain [reschedule] and [confirm]
    together, and then the confirmation text is what goes out. *)
Lemma C3_confirm_is_tested_first :
  let req := mkWebhookRequest "+15551234567" (Some "Confirm or reschedule?") in
  contains_in_any_case "reschedule" "Confirm or reschedule?"
  ∧ dispatched (trace (HandleInbound req ext_up startup))
    = [("+15551234567", confirmMessage)]
  ∧ dispatched (trace (HandleInbound req ext_up startup))
    ≠ [("+15551234567", rescheduleMessage)].
Proof.
  split; [|split].
  - exists "Confirm or ", "reschedule", "?". split; reflexivity.
  - vm_compute. reflexivity.
  - vm_compute. discriminate.
Qed.

(** C3, amended: for every body that contains [reschedule] in any letter
    case and whose upper-cased text does not include [CONFIRM], the webhook
    hands exactly one message to the transport, the fixed reschedule text
    addressed to the sender, and leaves the whole Map as it was. *)
Theorem C3_reschedule_without_confirm (req : WebhookRequest) (text : string)
    (ext : Externals) (st : St) :
  Body req = Some text →
  contains_in_any_case "reschedule" text →
  Text.includes (Text.toUpperCase (unicode_upper ext) text) "CONFIRM" = false →
  dispatched (trace (HandleInbound req ext st))
    = dispatched (trace st) ++ [(From req, rescheduleMessage)]
  ∧ conversations (HandleInbound req ext st) = conversations st.
Proof.
  intros Hbody Hin Hquiet.
  pose proof (keyword_test_fires (unicode_upper ext) "reschedule" text eq_refl Hin) as Hfire.
  change (capitals "reschedule") with "RESCHEDULE" in Hfire.
  rewrite (HandleInbound_keyword req text rescheduleMessage ext st Hbody
             (or_intror (conj Hquiet (conj Hfire eq_refl)))).
  cbv zeta. destruct (twilio_create ext _); cbn [trace conversations];
    rewrite dispatched_app; split; reflexivity.
Qed.

Lemma C3_reschedule_without_confirm_witness :
  let req := mkWebhookRequest "+15551234567" (Some "Can we RESCHEDULE to Friday?") in
  dispatched (trace (HandleInbound req ext_transport_down with_jane))
    = dispatched (trace with_jane) ++ [("+15551234567", rescheduleMessage)]
  ∧ conversations (HandleInbound req ext_transport_down with_jane) = conversations with_jane.
Proof.
  apply (C3_reschedule_without_confirm
           (mkWebhookRequest "+15551234567" (Some "Can we RESCHEDULE to Friday?"))
           "Can we RESCHEDULE to Friday?" ext_transport_down with_jane).
  - reflexivity.
  - exists "Can we ", "RESCHEDULE", " to Friday?". split; reflexivity.
  - vm_compute. reflexivity.
Defined.

(** ** C2: an exception inside the webhook *)

(** C2, as stated, fails: when the transport rejects the reply, the [try]
    block throws and the answer to the transport carries status 500, which is
    not success-shaped. *)
Lemma C2_exception_answers_500 :
  let req := mkWebhookRequest "+15551234567" (Some "hi") in
  (sms_webhook_try req ext_transport_down (arriving startup)).1
    = Thrown (ServiceError "transport unreachable")
  ∧ statusCode (res (HandleInbound req ext_transport_down startup)) = 500
  ∧ ¬ success_shaped (res (HandleInbound req ext_transport_down startup)).
Proof.
  split; [|split].
  - vm_compute. reflexivity.
  - vm_compute. reflexivity.
  - vm_compute. lia.
Qed.

(** Where the [try] block of the webhook throws, the handler's own [catch]
    takes over. *)
Lemma sms_webhook_caught (req : WebhookRequest) (ext : Externals) (st : St)
    (e : Exn) (thrown : St) :
  sms_webhook_try req ext (arriving st) = (Thrown e, thrown) →
  HandleInbound req ext st =
    mkSt (conversations thrown)
         (trace thrown ++ [ConsoleError "Error handling incoming SMS:" e])
         (mkResponse 500 (contentType (res thrown)) (Some (Sent emptyTwiML)))
         (dates thrown).
Proof.
  intros H. unfold HandleInbound, serve, sms_webhook. run. rewrite H. by run.
Qed.

(** The webhook answers 200 or 500, and a 500 never carries a content type:
    every statement that can throw stands before [res.set]. *)
Lemma HandleInbound_status (req : WebhookRequest) (ext : Externals) (st : St) :
  (statusCode (res (HandleInbound req ext st)) = 200
   ∧ contentType (res (HandleInbound req ext st)) = Some "text/xml")
  ∨ (statusCode (res (HandleInbound req ext st)) = 500
     ∧ contentType (res (HandleInbound req ext st)) = None).
Proof.
  destruct (Body req) as [text|] eqn:Hbody.
  2: { rewrite (HandleInbound_no_body req ext st Hbody). by right. }
  destruct (Text.includes (Text.toUpperCase (unicode_upper ext) text) "CONFIRM") eqn:Hconfirm.
  { rewrite (HandleInbound_keyword req text confirmMessage ext st Hbody
               (or_introl (conj Hconfirm eq_refl))).
    cbv zeta. destruct (twilio_create ext _); [by right|by left]. }
  destruct (Text.includes (Text.toUpperCase (unicode_upper ext) text) "RESCHEDULE") eqn:Hreschedule.
  { rewrite (HandleInbound_keyword req text rescheduleMessage ext st Hbody
               (or_intror (conj Hconfirm (conj Hreschedule eq_refl)))).
    cbv zeta. destruct (twilio_create ext _); [by right|by left]. }
  destruct (HandleInbound_converse req text ext st Hbody Hconfirm Hreschedule)
    as (reply & new & _ & _ & ->).
  cbv zeta. destruct (twilio_create ext _); [by right|by left].
Qed.

(** C2, amended: for every webhook request on which the [try] block throws
    (a missing body, a rejected dispatch), the handler writes the exception to
    the console and answers the transport with the empty TwiML body under the
    error status 500, with no content type set; the state the exception left
    behind is kept. *)
Theorem C2_exception_gives_500 (req : WebhookRequest) (ext : Externals) (st : St)
    (e : Exn) (thrown : St) :
  sms_webhook_try req ext (arriving st) = (Thrown e, thrown) →
  res (HandleInbound req ext st)
    = mkResponse 500 None (Some (Sent "<Response></Response>"))
  ∧ trace (HandleInbound req ext st)
    = trace thrown ++ [ConsoleError "Error handling incoming SMS:" e]
  ∧ conversations (HandleInbound req ext st) = conversations thrown.
Proof.
  intros H. pose proof (HandleInbound_status req ext st) as Hstatus.
  rewrite (sms_webhook_caught req ext st e thrown H) in *.
  cbn [res trace conversations statusCode contentType] in *.
  destruct Hstatus as [[? _]|[_ ->]]; [discriminate|done].
Qed.

Lemma C2_exception_gives_500_witness :
  let req := mkWebhookRequest "+15551234567" (Some "hi") in
  let thrown := (sms_webhook_try req ext_transport_down (arriving startup)).2 in
  res (HandleInbound req ext_transport_down startup)
    = mkResponse 500 None (Some (Sent "<Response></Response>"))
  ∧ trace (HandleInbound req ext_transport_down startup)
    = trace thrown
        ++ [ConsoleError "Error handling incoming SMS:" (ServiceError "transport unreachable")]
  ∧ conversations (HandleInbound req ext_transport_down startup) = conversations thrown.
Proof.
  apply (C2_exception_gives_500
           (mkWebhookRequest "+15551234567" (Some "hi")) ext_transport_down startup
           (ServiceError "transport unreachable")
           (sms_webhook_try (mkWebhookRequest "+15551234567" (Some "hi"))
              ext_transport_down (arriving startup)).2).
  vm_compute. reflexivity.
Defined.

(** ** C5, C10 and C7: the non-keyword path *)

(** The transcript of the conversation a message is added to is the
    transcript the Map held before. *)
Lemma conversation_or_new_messages (st : St) (phone : string) (now : Time) :
  messages (conversation_or_new st phone now) = transcript st phone.
Proof. unfold conversation_or_new, transcript. by destruct (conversations st !! phone). Qed.

Lemma transcript_insert (st : St) (phone : string) (c : Conversation)
    (events : list Event) (r : Response) (n : nat) :
  transcript (mkSt (<[phone := c]> (conversations st)) events r n) phone = messages c.
Proof. unfold transcript. cbn [conversations]. by rewrite lookup_insert_eq. Qed.

(** C5, as stated, fails: a first message that carries a keyword creates no
    conversation at all. *)
Lemma C5_keyword_creates_nothing :
  let req := mkWebhookRequest "+15551234567" (Some "CONFIRM") in
  conversations startup !! "+15551234567" = None
  ∧ conversations (HandleInbound req ext_up startup) !! "+15551234567" = None.
Proof. split; vm_compute; reflexivity. Qed.

(** C5, amended: for every phone number the Map does not hold and every
    body on which neither keyword test fires (its upper-cased text includes
    neither [CONFIRM] nor [RESCHEDULE]), the webhook's create step stores one
    new conversation under that number, with name [Customer], context
    [General inquiry] and an empty transcript; after the request the Map is the
    old Map plus that one conversation, whose transcript starts with the
    inbound message. *)
Theorem C5_first_contact_creates_one (req : WebhookRequest) (text : string)
    (ext : Externals) (st : St) :
  Body req = Some text →
  conversations st !! From req = None →
  Text.includes (Text.toUpperCase (unicode_upper ext) text) "CONFIRM" = false →
  Text.includes (Text.toUpperCase (unicode_upper ext) text) "RESCHEDULE" = false →
  conversations (get_or_create (From req) ext (arriving st)).2
    = <[From req := mkConversation "Customer" "General inquiry" (clock ext 0) []]>
        (conversations st)
  ∧ ∃ later,
      conversations (HandleInbound req ext st)
        = <[From req :=
              mkConversation "Customer" "General inquiry" (clock ext 0)
                (mkMessage inbound text (clock ext 1) :: later)]> (conversations st)
      ∧ size (conversations (HandleInbound req ext st)) = S (size (conversations st)).
Proof.
  intros Hbody Hnew Hconfirm Hreschedule. split.
  { unfold get_or_create, arriving. run. rewrite Hnew. by run. }
  destruct (HandleInbound_converse req text ext st Hbody Hconfirm Hreschedule)
    as (reply & new & _ & _ & ->).
  unfold conversation_or_new, dates_after_lookup, arriving. cbn [conversations dates].
  rewrite Hnew. cbv zeta.
  destruct (twilio_create ext _); eexists; cbn [conversations push_message messages app];
    (split; [reflexivity|by apply map_size_insert_None]).
Qed.

Lemma C5_first_contact_creates_one_witness :
  let req := mkWebhookRequest "+15557654321" (Some "hi") in
  conversations (get_or_create "+15557654321" ext_up (arriving with_jane)).2
    = <["+15557654321" := mkConversation "Customer" "General inquiry" (clock ext_up 0) []]>
        (conversations with_jane)
  ∧ ∃ later,
      conversations (HandleInbound req ext_up with_jane)
        = <["+15557654321" :=
              mkConversation "Customer" "General inquiry" (clock ext_up 0)
                (mkMessage inbound "hi" (clock ext_up 1) :: later)]> (conversations with_jane)
      ∧ size (conversations (HandleInbound req ext_up with_jane))
        = S (size (conversations with_jane)).
Proof.
  apply (C5_first_contact_creates_one
           (mkWebhookRequest "+15557654321" (Some "hi")) "hi" ext_up with_jane).
  - reflexivity.
  - vm_compute. reflexivity.
  - vm_compute. reflexivity.
  - vm_compute. reflexivity.
Defined.

(** C10: on the non-keyword path the inbound message is appended before the
    reply is composed and dispatched.  For every such request there is one
    reply handed to the transport; when the transport rejects it the answer is
    a 500 and the transcript has grown by exactly the inbound message, and when
    the transport takes it the answer is a 200 and the transcript has grown by
    the inbound message followed by the outbound reply. *)
Theorem C10_transcript_growth (req : WebhookRequest) (text : string)
    (ext : Externals) (st : St) :
  Body req = Some text →
  Text.includes (Text.toUpperCase (unicode_upper ext) text) "CONFIRM" = false →
  Text.includes (Text.toUpperCase (unicode_upper ext) text) "RESCHEDULE" = false →
  let phone := From req in
  let after := HandleInbound req ext st in
  ∃ reply received,
    dispatched (trace after) = dispatched (trace st) ++ [(phone, reply)]
    ∧ match twilio_create ext (mkSmsRequest reply (TWILIO_PHONE_NUMBER ext) phone) with
      | DeliveryRejected _ =>
          statusCode (res after) = 500
          ∧ transcript after phone
            = transcript st phone ++ [mkMessage inbound text received]
          ∧ length (transcript after phone) = length (transcript st phone) + 1
      | DeliveryResolved _ =>
          statusCode (res after) = 200
          ∧ (∃ sent,
               transcript after phone
               = transcript st phone
                   ++ [mkMessage inbound text received; mkMessage outbound reply sent])
          ∧ length (transcript after phone) = length (transcript st phone) + 2
      end.
Proof.
  intros Hbody Hconfirm Hreschedule phone after. subst after.
  destruct (HandleInbound_converse req text ext st Hbody Hconfirm Hreschedule)
    as (reply & new & Hd & _ & ->).
  fold phone. cbv zeta.
  exists reply, (clock ext (dates_after_lookup (arriving st) phone)).
  destruct (twilio_create ext _); cbn [trace res statusCode];
    rewrite transcript_insert; cbn [push_message messages];
    rewrite conversation_or_new_messages, !dispatched_app, Hd.
  - split; [reflexivity|]. split; [reflexivity|]. split; [reflexivity|].
    rewrite length_app. reflexivity.
  - split; [reflexivity|]. split; [reflexivity|]. split.
    + eexists. by rewrite <-app_assoc.
    + rewrite !length_app. cbn [length]. lia.
Qed.

Lemma C10_transcript_growth_witness :
  let req := mkWebhookRequest "+15551234567" (Some "what are your hours") in
  let after := HandleInbound req ext_transport_down with_jane in
  ∃ reply received,
    dispatched (trace after) = dispatched (trace with_jane) ++ [("+15551234567", reply)]
    ∧ match twilio_create ext_transport_down
              (mkSmsRequest reply (TWILIO_PHONE_NUMBER ext_transport_down) "+15551234567") with
      | DeliveryRejected _ =>
          statusCode (res after) = 500
          ∧ transcript after "+15551234567"
            = transcript with_jane "+15551234567"
                ++ [mkMessage inbound "what are your hours" received]
          ∧ length (transcript after "+15551234567")
            = length (transcript with_jane "+15551234567") + 1
      | DeliveryResolved _ =>
          statusCode (res after) = 200
          ∧ (∃ sent,
               transcript after "+15551234567"
               = transcript with_jane "+15551234567"
                   ++ [mkMessage inbound "what are your hours" received;
                       mkMessage outbound reply sent])
          ∧ length (transcript after "+15551234567")
            = length (transcript with_jane "+15551234567") + 2
      end.
Proof.
  apply (C10_transcript_growth
           (mkWebhookRequest "+15551234567" (Some "what are your hours"))
           "what are your hours" ext_transport_down with_jane).
  - reflexivity.
  - vm_compute. reflexivity.
  - vm_compute. reflexivity.
Defined.

(** On the non-keyword path a success-shaped answer means the transport took
    the reply, and the conversation then holds the inbound message and the
    outbound reply after what it held. *)
Lemma HandleInbound_converse_success (req : WebhookRequest) (text : string)
    (ext : Externals) (st : St) :
  Body req = Some text →
  Text.includes (Text.toUpperCase (unicode_upper ext) text) "CONFIRM" = false →
  Text.includes (Text.toUpperCase (unicode_upper ext) text) "RESCHEDULE" = false →
  success_shaped (res (HandleInbound req ext st)) →
  let c0 := conversation_or_new st (From req) (clock ext 0) in
  let d := dates_after_lookup (arriving st) (From req) in
  ∃ reply,
    conversations (HandleInbound req ext st)
    = <[From req :=
          mkConversation (name c0) (context c0) (started c0)
            (messages c0 ++ [mkMessage inbound text (clock ext d);
                             mkMessage outbound reply (clock ext (S d))])]>
        (conversations st).
Proof.
  intros Hbody Hconfirm Hreschedule Hok c0 d. subst c0 d. revert Hok.
  destruct (HandleInbound_converse req text ext st Hbody Hconfirm Hreschedule)
    as (reply & new & _ & _ & ->).
  cbv zeta. destruct (twilio_create ext _); unfold success_shaped;
    cbn [res statusCode conversations]; intros Hok; [lia|].
  exists reply. unfold push_message. cbn [name context started messages].
  by rewrite <-app_assoc.
Qed.

(** C7: from a Map without the number, two successive webhook requests from
    it with the bodies [hi] and [what are your hours], both answered with
    success, leave the old Map plus one conversation for the number, named
    [Customer] with context [General inquiry], whose transcript is exactly
    inbound [hi], outbound reply, inbound [what are your hours], outbound
    reply. *)
Theorem C7_two_exchanges (phone : string) (ext1 ext2 : Externals) (st : St) :
  conversations st !! phone = None →
  let st1 := HandleInbound (mkWebhookRequest phone (Some "hi")) ext1 st in
  let st2 := HandleInbound (mkWebhookRequest phone (Some "what are your hours")) ext2 st1 in
  success_shaped (res st1) →
  success_shaped (res st2) →
  ∃ reply1 reply2,
    conversations st2
    = <[phone :=
          mkConversation "Customer" "General inquiry" (clock ext1 0)
            [ mkMessage inbound "hi" (clock ext1 1);
              mkMessage outbound reply1 (clock ext1 2);
              mkMessage inbound "what are your hours" (clock ext2 0);
              mkMessage outbound reply2 (clock ext2 1) ]]> (conversations st)
    ∧ direction <$> transcript st2 phone = [inbound; outbound; inbound; outbound]
    ∧ length (transcript st2 phone) = 4.
Proof.
  intros Hnew st1 st2 Hok1 Hok2.
  destruct (HandleInbound_converse_success (mkWebhookRequest phone (Some "hi"))
              "hi" ext1 st eq_refl eq_refl eq_refl Hok1) as (reply1 & H1).
  destruct (HandleInbound_converse_success
              (mkWebhookRequest phone (Some "what are your hours"))
              "what are your hours" ext2 st1 eq_refl eq_refl eq_refl Hok2)
    as (reply2 & H2).
  fold st1 in H1. fold st2 in H2. cbn [From] in H1, H2.
  unfold conversation_or_new, dates_after_lookup, arriving in H1, H2.
  cbn [conversations dates] in H1, H2.
  rewrite Hnew in H1. rewrite H1, lookup_insert_eq, insert_insert_eq in H2.
  cbn [name context started messages app] in H1, H2.
  exists reply1, reply2. split; [exact H2|].
  unfold transcript. rewrite H2, lookup_insert_eq. by split.
Qed.

Lemma C7_two_exchanges_witness :
  let phone := "+15557654321" in
  let st1 := HandleInbound (mkWebhookRequest phone (Some "hi")) ext_up startup in
  let st2 :=
    HandleInbound (mkWebhookRequest phone (Some "what are your hours"))
      ext_completion_down st1 in
  ∃ reply1 reply2,
    conversations st2
    = <[phone :=
          mkConversation "Customer" "General inquiry" (clock ext_up 0)
            [ mkMessage inbound "hi" (clock ext_up 1);
              mkMessage outbound reply1 (clock ext_up 2);
              mkMessage inbound "what are your hours" (clock ext_completion_down 0);
              mkMessage outbound reply2 (clock ext_completion_down 1) ]]>
        (conversations startup)
    ∧ direction <$> transcript st2 phone = [inbound; outbound; inbound; outbound]
    ∧ length (transcript st2 phone) = 4.
Proof.
  apply (C7_two_exchanges "+15557654321" ext_up ext_completion_down startup).
  - reflexivity.
  - unfold success_shaped. vm_compute. lia.
  - unfold success_shaped. vm_compute. lia.
Defined.

(** ** C9: a trigger that fails *)

(** C9: the trigger stores the new conversation (name and context of the
    request, empty transcript) before it composes and dispatches.  So for every
    request answered with the 500 error, the Map after the request is the old
    Map with that empty conversation written over whatever the number had; the
    500 comes from a rejected dispatch, the composer having returned a text. *)
Theorem C9_failed_trigger_keeps_new_conversation (req : InitiateRequest)
    (ext : Externals) (st : St) :
  statusCode (res (InitiateContact req ext st)) = 500 →
  conversations (InitiateContact req ext st)
    = <[customer_phone req :=
          mkConversation (customer_name req) (trigger_context req) (clock ext 0) []]>
        (conversations st)
  ∧ transcript (InitiateContact req ext st) (customer_phone req) = []
  ∧ body (res (InitiateContact req ext st)) = Some (JsonError "Failed to initiate contact")
  ∧ ∃ reply e,
      twilio_create ext (mkSmsRequest reply (TWILIO_PHONE_NUMBER ext) (customer_phone req))
        = DeliveryRejected e
      ∧ dispatched (trace (InitiateContact req ext st))
        = dispatched (trace st) ++ [(customer_phone req, reply)].
Proof.
  destruct (InitiateContact_run req ext st) as (reply & new & Hd & _ & ->).
  cbv zeta.
  destruct (twilio_create ext _) as [e|sid] eqn:Hsms;
    cbn [res statusCode body conversations trace]; intros H500; [|discriminate].
  split; [reflexivity|]. split; [by rewrite transcript_insert|]. split; [reflexivity|].
  exists reply, e. split; [exact Hsms|].
  by rewrite !dispatched_app, Hd.
Qed.

Lemma C9_failed_trigger_keeps_new_conversation_witness :
  let req := mkInitiateRequest "+15551234567" "Jane" "repair visit" in
  conversations (InitiateContact req ext_transport_down with_jane)
    = <["+15551234567" := mkConversation "Jane" "repair visit" (clock ext_transport_down 0) []]>
        (conversations with_jane)
  ∧ transcript (InitiateContact req ext_transport_down with_jane) "+15551234567" = []
  ∧ body (res (InitiateContact req ext_transport_down with_jane))
    = Some (JsonError "Failed to initiate contact")
  ∧ ∃ reply e,
      twilio_create ext_transport_down
        (mkSmsRequest reply (TWILIO_PHONE_NUMBER ext_transport_down) "+15551234567")
        = DeliveryRejected e
      ∧ dispatched (trace (InitiateContact req ext_transport_down with_jane))
        = dispatched (trace with_jane) ++ [("+15551234567", reply)].
Proof.
  apply (C9_failed_trigger_keeps_new_conversation
           (mkInitiateRequest "+15551234567" "Jane" "repair visit")
           ext_transport_down with_jane).
  vm_compute. reflexivity.
Defined.

(** The conversation Jane had is gone after the failed trigger. *)
Example failed_trigger_drops_jane's_transcript :
  transcript with_jane "+15551234567"
    = [mkMessage outbound "Hi Jane, how can we help?" 1699999990500%N]
  ∧ transcript
      (InitiateContact (mkInitiateRequest "+15551234567" "Jane" "repair visit")
         ext_transport_down with_jane) "+15551234567" = [].
Proof. split; vm_compute; reflexivity. Qed.

(** ** C8: the listing *)

(** C8: for every state of the Map, route 4 answers with an object that
    holds, under a phone number, nothing but the summary of the conversation
    stored under that number: name, context, start time, number of messages and
    last message (none for an empty transcript).  Every number of the Map other
    than the key [__proto__] is listed, the Map is not changed, and two Maps
    whose conversations agree on these five data get the same answer, whatever
    else their transcripts hold. *)
Theorem C8_listing_holds_summaries_only (ext : Externals) (st : St) :
  body (res (ListConversations ext st))
    = Some (JsonListing (allConversations (conversations st)))
  ∧ conversations (ListConversations ext st) = conversations st
  ∧ (∀ phone,
       allConversations (conversations st) !! phone =
         if decide (phone = "__proto__") then None
         else (fun c => mkSummary (name c) (context c) (started c)
                          (length (messages c)) (last (messages c)))
              <$> conversations st !! phone)
  ∧ (∀ ext' st',
       (∀ phone,
          (fun c => (name c, context c, started c, length (messages c), last (messages c)))
            <$> conversations st' !! phone
          = (fun c => (name c, context c, started c, length (messages c), last (messages c)))
            <$> conversations st !! phone) →
       body (res (ListConversations ext' st')) = body (res (ListConversations ext st))).
Proof.
  rewrite ListConversations_run. cbn [res body conversations].
  split; [reflexivity|]. split; [reflexivity|]. split.
  - intros phone. rewrite allConversations_lookup. case_decide; [done|].
    destruct (conversations st !! phone) as [c|]; [|done].
    cbn. unfold summarise. by rewrite item_at_last.
  - intros ext' st' Hsame. rewrite ListConversations_run. cbn [res body].
    do 2 f_equal. apply map_eq. intros phone. rewrite !allConversations_lookup.
    case_decide; [done|]. specialize (Hsame phone).
    destruct (conversations st' !! phone) as [c'|], (conversations st !! phone) as [c|];
      cbn in *; try done.
    unfold summarise. rewrite !item_at_last.
    injection Hsame as -> -> -> -> ->. reflexivity.
Qed.

(** Two transcripts of three messages that differ in the first two are
    listed alike. *)
Example listing_hides_earlier_messages :
  let last_one := mkMessage outbound "See you Friday." 30%N in
  let one := mkConversation "Jane" "quote" 1%N
               [mkMessage inbound "hello" 10%N; mkMessage outbound "Hi Jane" 20%N; last_one] in
  let other := mkConversation "Jane" "quote" 1%N
               [mkMessage inbound "my address is 1 Elm St" 11%N;
                mkMessage outbound "Noted." 21%N; last_one] in
  one ≠ other
  ∧ allConversations {[ "+15551234567" := one ]}
    = allConversations {[ "+15551234567" := other ]}.
Proof.
  cbv zeta. split; [discriminate|].
  apply map_eq. intros phone. rewrite !allConversations_lookup.
  case_decide; [done|].
  destruct (decide (phone = "+15551234567")) as [->|Hne].
  - by rewrite !lookup_singleton_eq.
  - by rewrite !lookup_singleton_ne.
Qed.

(** A conversation stored under the key [__proto__] is not listed. *)
Example listing_skips_proto :
  allConversations {[ "__proto__" := jane ]} = ∅.
Proof.
  apply map_eq. intros phone. rewrite allConversations_lookup, lookup_empty.
  case_decide as Hp; [done|]. by rewrite lookup_singleton_ne.
Qed.

(** ** C4: the history string and the completion request *)

Lemma sliceLast_length {A} (n : nat) (l : list A) :
  length (Text.sliceLast n l) = n `min` length l.
Proof. unfold Text.sliceLast. rewrite length_drop. lia. Qed.

Lemma sliceLast_suffix {A} (n : nat) (l : list A) : Text.sliceLast n l `suffix_of` l.
Proof. apply suffix_drop. Qed.

Lemma sliceLast_keeps_last {A} (n : nat) (l : list A) (x : A) :
  last (Text.sliceLast (S n) (l ++ [x])) = Some x.
Proof.
  unfold Text.sliceLast. rewrite length_app. cbn [length].
  replace (length l + 1 - S n) with (length l - n) by lia.
  rewrite drop_app_le by lia. apply last_snoc.
Qed.

(** The history string of the webhook: the lines of the last three entries
    of the transcript (all of them when there are fewer), the entry just
    appended being the last of them. *)
Lemma contextString_recent (msgs : list Message) (m : Message) :
  ∃ recent,
    contextString (msgs ++ [m]) = Text.join Text.LF (history_line <$> recent)
    ∧ recent `suffix_of` (msgs ++ [m])
    ∧ length recent ≤ 3
    ∧ last recent = Some m.
Proof.
  exists (Text.sliceLast 3 (msgs ++ [m])). split; [reflexivity|].
  split; [apply sliceLast_suffix|]. split.
  - rewrite sliceLast_length. lia.
  - apply sliceLast_keeps_last.
Qed.

(** The request sent to the completion API is built from the customer
    message and [context.businessContext] alone. *)
Lemma completion_request_ignores_history (customerMessage : string)
    (business history1 history2 : option string) :
  completion_request customerMessage (mkContext business history1)
  = completion_request customerMessage (mkContext business history2).
Proof. reflexivity. Qed.

Lemma generateAIResponse_ignores_history (customerMessage : string)
    (business history1 history2 : option string) :
  generateAIResponse customerMessage (mkContext business history1)
  = generateAIResponse customerMessage (mkContext business history2).
Proof. reflexivity. Qed.

(** C4, at a conversation with an earlier message: the webhook builds the
    history string from the last entries of the transcript, the inbound message
    included, but the one completion request it makes is the request of a
    context without history: the system prompt carries the stored context
    label, the user message carries the body, and neither carries the history
    string nor the earlier message. *)
Theorem C4_history_does_not_reach_the_request :
  let req := mkWebhookRequest "+15551234567" (Some "what are your hours") in
  let after := HandleInbound req ext_up with_jane in
  let history :=
    contextString
      (messages jane ++ [mkMessage inbound "what are your hours" (clock ext_up 0)]) in
  history
    = "outbound: Hi Jane, how can we help?" +:+ Text.LF +:+ "inbound: what are your hours"
  ∧ composed (trace after)
    = [completion_request "what are your hours"
         (mkContext (Some "blind install quote") None)]
  ∧ forallb
      (fun m => negb (Text.includes (content m) history)
                && negb (Text.includes (content m) "Hi Jane, how can we help?"))
      (composed (trace after) ≫= chat_messages) = true.
Proof. cbv zeta. split; [|split]; vm_compute; reflexivity. Qed.

(** * Further properties of the code, X1 onwards *)

(** ** The two helpers *)

(** X1: [sendSMS] makes exactly one call to the transport, for the given
    number and text and from the configured sender, and no completion call.
    It returns the receipt when the transport resolves and throws the
    transport's own error, after writing it to the console, when it rejects.
    The Map, the response and the clock count are left as they were. *)
Theorem X1_sendSMS_passes_the_outcome_on (to text : string) (ext : Externals) (st : St) :
  ∃ new,
    (sendSMS to text ext st).2 = logged st new
    ∧ new !! 0 = Some (SmsCall (mkSmsRequest text (TWILIO_PHONE_NUMBER ext) to))
    ∧ dispatched new = [(to, text)]
    ∧ composed new = []
    ∧ match twilio_create ext (mkSmsRequest text (TWILIO_PHONE_NUMBER ext) to) with
      | DeliveryRejected e =>
          (sendSMS to text ext st).1 = Thrown e
          ∧ last new = Some (ConsoleError "Twilio SMS error:" e)
      | DeliveryResolved sid =>
          (sendSMS to text ext st).1 = Returned sid
          ∧ last new = Some (ConsoleLog ("SMS sent to " +:+ to +:+ ": " +:+ text))
      end.
Proof.
  destruct (twilio_create ext (mkSmsRequest text (TWILIO_PHONE_NUMBER ext) to))
    as [e|sid] eqn:Hsms.
  - rewrite (sendSMS_rejected ext st _ _ _ Hsms). eexists. by repeat split.
  - rewrite (sendSMS_resolved ext st _ _ _ Hsms). eexists. by repeat split.
Qed.

(** X2: [generateAIResponse] never throws.  For every message, context and
    answer of the completion API it makes exactly one completion call and no
    transport call, leaves the Map and the response as they were, and returns
    either the trimmed content of the first choice or, when there is none to
    use, the fixed fallback text. *)
Theorem X2_composer_always_returns (customerMessage : string) (context : Context)
    (ext : Externals) (st : St) :
  ∃ text new,
    generateAIResponse customerMessage context ext st = (Returned text, logged st new)
    ∧ composed new = [completion_request customerMessage context]
    ∧ dispatched new = []
    ∧ match openai_create ext (completion_request customerMessage context) with
      | CompletionResolved (Some first :: _) => text = Text.trim first
      | _ => text = fallbackMessage
      end.
Proof.
  destruct (openai_create ext (completion_request customerMessage context))
    as [e|[|[first|] others]] eqn:H.
  2,4: edestruct (generateAIResponse_failed ext st customerMessage context)
         as [error ->]; [by rewrite H|by eauto 10].
  - edestruct (generateAIResponse_failed ext st customerMessage context)
      as [error ->]; [by rewrite H|by eauto 10].
  - rewrite (generateAIResponse_resolved ext st _ _ _ _ H). by eauto 10.
Qed.

(** ** The webhook, all paths at once *)

(** What one webhook request does, whatever its body: the events it adds
    to the trace, the Map it leaves and the answer it gives.  There are three
    paths: no body text, a keyword, anything else. *)
Lemma HandleInbound_cases (req : WebhookRequest) (ext : Externals) (st : St) :
  let after := HandleInbound req ext st in
  let phone := From req in
  let ok := mkResponse 200 (Some "text/xml") (Some (Sent emptyTwiML)) in
  let failed := mkResponse 500 None (Some (Sent emptyTwiML)) in
  ∃ new,
    trace after = trace st ++ new
    ∧ ((Body req = None
        ∧ conversations after = conversations st
        ∧ dispatched new = [] ∧ composed new = [] ∧ res after = failed)
       ∨ (∃ text fixed,
            Body req = Some text
            ∧ (Text.includes (Text.toUpperCase (unicode_upper ext) text) "CONFIRM" = true
               ∨ Text.includes (Text.toUpperCase (unicode_upper ext) text) "RESCHEDULE" = true)
            ∧ conversations after = conversations st
            ∧ dispatched new = [(phone, fixed)] ∧ composed new = []
            ∧ (res after = ok ∨ res after = failed))
       ∨ (∃ text reply,
            Body req = Some text
            ∧ Text.includes (Text.toUpperCase (unicode_upper ext) text) "CONFIRM" = false
            ∧ Text.includes (Text.toUpperCase (unicode_upper ext) text) "RESCHEDULE" = false
            ∧ dispatched new = [(phone, reply)]
            ∧ (let c0 := conversation_or_new st phone (clock ext 0) in
               let d := dates_after_lookup (arriving st) phone in
               let inb := mkMessage inbound text (clock ext d) in
               composed new =
                 [completion_request text
                    (mkContext (Some (context c0))
                       (Some (contextString (messages c0 ++ [inb]))))]
               ∧ ((res after = failed
                   ∧ conversations after
                     = <[phone := push_message c0 inb]> (conversations st))
                  ∨ (res after = ok
                     ∧ conversations after
                       = <[phone := push_message (push_message c0 inb)
                                      (mkMessage outbound reply (clock ext (S d)))]>
                           (conversations st)))))).
Proof.
  cbv zeta. destruct (Body req) as [text|] eqn:Hbody.
  2: { rewrite (HandleInbound_no_body req ext st Hbody). eexists. split; [reflexivity|].
       left. by repeat split. }
  destruct (Text.includes (Text.toUpperCase (unicode_upper ext) text) "CONFIRM") eqn:Hconfirm.
  { rewrite (HandleInbound_keyword req text confirmMessage ext st Hbody
               (or_introl (conj Hconfirm eq_refl))).
    cbv zeta. destruct (twilio_create ext _); eexists; (split; [reflexivity|]);
      right; left; exists text, confirmMessage; cbn [conversations res];
      repeat split; auto. }
  destruct (Text.includes (Text.toUpperCase (unicode_upper ext) text) "RESCHEDULE") eqn:Hreschedule.
  { rewrite (HandleInbound_keyword req text rescheduleMessage ext st Hbody
               (or_intror (conj Hconfirm (conj Hreschedule eq_refl)))).
    cbv zeta. destruct (twilio_create ext _); eexists; (split; [reflexivity|]);
      right; left; exists text, rescheduleMessage; cbn [conversations res];
      repeat split; auto. }
  destruct (HandleInbound_converse req text ext st Hbody Hconfirm Hreschedule)
    as (reply & new & Hd & Hk & ->).
  cbv zeta. destruct (twilio_create ext _); eexists; (split; [reflexivity|]);
    right; right; exists text, reply; cbn [conversations res];
    rewrite !dispatched_app, !composed_app, Hd, Hk;
    (split; [done|]); (split; [done|]); (split; [done|]); (split; [done|]);
    (split; [done|]); [left|right]; done.
Qed.

(** ** Route 1, the trigger *)

(** X4: a trigger that is answered with success has sent one text, and the
    same text is the [initialMessage] of the answer and the only entry, an
    outbound one, of the transcript now stored for the number.  Whatever the
    number's transcript held before is gone. *)
Theorem X4_trigger_success_agrees (req : InitiateRequest) (ext : Externals) (st : St) :
  success_shaped (res (InitiateContact req ext st)) →
  ∃ reply,
    res (InitiateContact req ext st)
      = mkResponse 200 None (Some (JsonInitiated true "Contact initiated" reply))
    ∧ dispatched (trace (InitiateContact req ext st))
      = dispatched (trace st) ++ [(customer_phone req, reply)]
    ∧ conversations (InitiateContact req ext st) !! customer_phone req
      = Some (mkConversation (customer_name req) (trigger_context req) (clock ext 0)
                [mkMessage outbound reply (clock ext 1)]).
Proof.
  destruct (InitiateContact_run req ext st) as (reply & new & Hd & _ & ->).
  cbv zeta. destruct (twilio_create ext _); unfold success_shaped;
    cbn [res statusCode conversations trace]; intros Hok; [lia|].
  exists reply. split; [done|]. split; [by rewrite !dispatched_app, Hd|].
  by rewrite lookup_insert_eq.
Qed.

Lemma X4_trigger_success_agrees_witness :
  let req := mkInitiateRequest "+15551234567" "Jane" "repair visit" in
  ∃ reply,
    res (InitiateContact req ext_up with_jane)
      = mkResponse 200 None (Some (JsonInitiated true "Contact initiated" reply))
    ∧ dispatched (trace (InitiateContact req ext_up with_jane))
      = dispatched (trace with_jane) ++ [("+15551234567", reply)]
    ∧ conversations (InitiateContact req ext_up with_jane) !! "+15551234567"
      = Some (mkConversation "Jane" "repair visit" (clock ext_up 0)
                [mkMessage outbound reply (clock ext_up 1)]).
Proof.
  apply (X4_trigger_success_agrees
           (mkInitiateRequest "+15551234567" "Jane" "repair visit") ext_up with_jane).
  unfold success_shaped. vm_compute. lia.
Defined.

(** X5: a trigger touches the entry of its own number and no other.  It
    always leaves a conversation for the number with the name and context of
    the request, started at the first clock reading, with at most one message;
    it makes exactly one completion call and hands exactly one text to the
    transport, for that number; and it answers 200 or 500. *)
Theorem X5_trigger_touches_one_number (req : InitiateRequest) (ext : Externals) (st : St) :
  let after := InitiateContact req ext st in
  let phone := customer_phone req in
  delete phone (conversations after) = delete phone (conversations st)
  ∧ (∃ c, conversations after !! phone = Some c
          ∧ name c = customer_name req ∧ context c = trigger_context req
          ∧ started c = clock ext 0 ∧ length (messages c) ≤ 1)
  ∧ (∃ reply, dispatched (trace after) = dispatched (trace st) ++ [(phone, reply)])
  ∧ length (composed (trace after)) = length (composed (trace st)) + 1
  ∧ (statusCode (res after) = 200 ∨ statusCode (res after) = 500).
Proof.
  cbv zeta. destruct (InitiateContact_run req ext st) as (reply & new & Hd & Hk & ->).
  cbv zeta. destruct (twilio_create ext _);
    cbn [res statusCode conversations trace];
    rewrite delete_insert_eq, lookup_insert_eq, !dispatched_app, !composed_app, Hd, Hk.
  all: split; [done|]; split; [eexists; repeat split; cbn; lia|].
  all: split; [by exists reply|]; split; [rewrite !length_app; cbn; lia|auto].
Qed.

(** ** Route 2, the webhook *)

(** X6: a webhook request touches the entry of the sender and no other, and
    it never rewrites what identifies a conversation: one that exists keeps
    its name, its context label and its start time. *)
Theorem X6_webhook_touches_one_number (req : WebhookRequest) (ext : Externals) (st : St) :
  let after := HandleInbound req ext st in
  let phone := From req in
  delete phone (conversations after) = delete phone (conversations st)
  ∧ (∀ c, conversations st !! phone = Some c →
          ∃ c', conversations after !! phone = Some c'
                ∧ name c' = name c ∧ context c' = context c ∧ started c' = started c).
Proof.
  cbv zeta. destruct (HandleInbound_cases req ext st) as (new & _ & Hcases).
  cbv zeta in Hcases.
  destruct Hcases as [(_ & -> & _)|[(text & fixed & _ & _ & -> & _)
                     |(text & reply & _ & _ & _ & _ & _ & [[_ ->]|[_ ->]])]].
  1,2: split; [done|]; intros c Hc; by exists c.
  all: rewrite delete_insert_eq; split; [done|]; intros c Hc;
       unfold conversation_or_new; rewrite Hc, lookup_insert_eq; by eexists.
Qed.

(** X7: the webhook only ever appends.  After any request the transcript
    stored for the sender starts with the transcript stored before, and is
    longer by at most two messages; a request without a body text or with a
    keyword leaves it as it was. *)
Theorem X7_webhook_only_appends (req : WebhookRequest) (ext : Externals) (st : St) :
  let after := HandleInbound req ext st in
  let phone := From req in
  transcript st phone `prefix_of` transcript after phone
  ∧ length (transcript after phone) ≤ length (transcript st phone) + 2
  ∧ (Body req = None → transcript after phone = transcript st phone)
  ∧ (∀ text, Body req = Some text →
       Text.includes (Text.toUpperCase (unicode_upper ext) text) "CONFIRM" = true
       ∨ Text.includes (Text.toUpperCase (unicode_upper ext) text) "RESCHEDULE" = true →
       transcript after phone = transcript st phone).
Proof.
  cbv zeta. destruct (HandleInbound_cases req ext st) as (new & _ & Hcases).
  cbv zeta in Hcases.
  destruct Hcases as [(Hbody & Hsame & _)|[(text & fixed & Hbody & Hkey & Hsame & _)
                     |(text & reply & Hbody & Hc & Hr & _ & _ & Hstore)]].
  1,2: assert (transcript (HandleInbound req ext st) (From req)
               = transcript st (From req)) as -> by (unfold transcript; by rewrite Hsame);
       (split; [done|]); (split; [lia|]); by split.
  assert (∃ added, transcript (HandleInbound req ext st) (From req)
                   = transcript st (From req) ++ added ∧ length added ≤ 2)
    as (added & -> & Hlen).
  { unfold transcript at 1.
    destruct Hstore as [[_ ->]|[_ ->]]; rewrite lookup_insert_eq;
      cbn [push_message messages]; rewrite conversation_or_new_messages, <-?app_assoc;
      eexists; (split; [reflexivity|]); cbn; lia. }
  split; [by apply prefix_app_r|]. split; [rewrite length_app; lia|].
  split; [congruence|].
  intros text' Hbody' [Hfire|Hfire]; congruence.
Qed.

(** X8: every webhook request is answered, and always with the empty TwiML
    body.  The answer is one of two: status 200 with content type [text/xml],
    or status 500 with no content type set; a request without a body text gets
    the second. *)
Theorem X8_webhook_always_acknowledges (req : WebhookRequest) (ext : Externals) (st : St) :
  let after := HandleInbound req ext st in
  body (res after) = Some (Sent "<Response></Response>")
  ∧ (res after = mkResponse 200 (Some "text/xml") (Some (Sent "<Response></Response>"))
     ∨ res after = mkResponse 500 None (Some (Sent "<Response></Response>")))
  ∧ (Body req = None → statusCode (res after) = 500).
Proof.
  cbv zeta. destruct (HandleInbound_cases req ext st) as (new & _ & Hcases).
  cbv zeta in Hcases.
  destruct Hcases as [(Hbody & _ & _ & _ & ->)|[(text & fixed & Hbody & _ & _ & _ & _ & [->| ->])
                     |(text & reply & Hbody & _ & _ & _ & _ & [[-> _]|[-> _]])]];
    repeat split; auto; congruence.
Qed.

(** X9: what one webhook request asks of the outside.  It hands at most one
    text to the transport, always for the sender, and makes at most one
    completion call, never without then handing a text to the transport.  A
    request without a body text calls nothing; a request on which a keyword
    test fires sends its text without any completion call. *)
Theorem X9_webhook_calls (req : WebhookRequest) (ext : Externals) (st : St) :
  ∃ new,
    trace (HandleInbound req ext st) = trace st ++ new
    ∧ length (dispatched new) ≤ 1
    ∧ length (composed new) ≤ length (dispatched new)
    ∧ (∀ to text, (to, text) ∈ dispatched new → to = From req)
    ∧ (Body req = None → dispatched new = [] ∧ composed new = [])
    ∧ (∀ text, Body req = Some text →
         Text.includes (Text.toUpperCase (unicode_upper ext) text) "CONFIRM" = true
         ∨ Text.includes (Text.toUpperCase (unicode_upper ext) text) "RESCHEDULE" = true →
         length (dispatched new) = 1 ∧ composed new = []).
Proof.
  destruct (HandleInbound_cases req ext st) as (new & Htrace & Hcases).
  cbv zeta in Hcases. exists new. split; [exact Htrace|].
  destruct Hcases as [(Hbody & _ & -> & -> & _)
                     |[(text & fixed & Hbody & Hkey & _ & -> & -> & _)
                     |(text & reply & Hbody & Hc & Hr & -> & -> & _)]].
  - split; [cbn; lia|]. split; [cbn; lia|].
    split; [by intros to text ?%elem_of_nil|]. split; [done|]. congruence.
  - split; [cbn; lia|]. split; [cbn; lia|].
    split; [intros to text' Hin%list_elem_of_singleton; congruence|].
    split; [congruence|]. done.
  - split; [cbn; lia|]. split; [cbn; lia|].
    split; [intros to text' Hin%list_elem_of_singleton; congruence|].
    split; [congruence|]. intros text' Hbody' [Hfire|Hfire]; congruence.
Qed.

(** The composer's result, named. *)
Lemma generateAIResponse_value (customerMessage : string) (context : Context)
    (ext : Externals) (st : St) :
  ∃ new,
    generateAIResponse customerMessage context ext st
      = (Returned (reply_text ext customerMessage context), logged st new)
    ∧ dispatched new = []
    ∧ composed new = [completion_request customerMessage context].
Proof.
  unfold reply_text.
  destruct (openai_create ext (completion_request customerMessage context))
    as [e|[|[first|] others]] eqn:H.
  2,4: edestruct (generateAIResponse_failed ext st customerMessage context)
         as [error ->]; [by rewrite H|by eauto].
  - edestruct (generateAIResponse_failed ext st customerMessage context)
      as [error ->]; [by rewrite H|by eauto].
  - rewrite (generateAIResponse_resolved ext st _ _ _ _ H). by eauto.
Qed.

(** The non-keyword path with its reply named: the text handed to the
    transport, and recorded when the transport takes it, is the composer's. *)
Lemma HandleInbound_reply (req : WebhookRequest) (text : string)
    (ext : Externals) (st : St) :
  Body req = Some text →
  Text.includes (Text.toUpperCase (unicode_upper ext) text) "CONFIRM" = false →
  Text.includes (Text.toUpperCase (unicode_upper ext) text) "RESCHEDULE" = false →
  let phone := From req in
  let c0 := conversation_or_new st phone (clock ext 0) in
  let d := dates_after_lookup (arriving st) phone in
  let inb := mkMessage inbound text (clock ext d) in
  ∃ reply,
    reply = reply_text ext text (mkContext (Some (context c0)) None)
    ∧ dispatched (trace (HandleInbound req ext st))
      = dispatched (trace st) ++ [(phone, reply)]
    ∧ match twilio_create ext (mkSmsRequest reply (TWILIO_PHONE_NUMBER ext) phone) with
      | DeliveryRejected e =>
          statusCode (res (HandleInbound req ext st)) = 500
          ∧ conversations (HandleInbound req ext st)
            = <[phone := push_message c0 inb]> (conversations st)
      | DeliveryResolved sid =>
          statusCode (res (HandleInbound req ext st)) = 200
          ∧ conversations (HandleInbound req ext st)
            = <[phone := push_message (push_message c0 inb)
                           (mkMessage outbound reply (clock ext (S d)))]> (conversations st)
      end.
Proof.
  intros Hbody Hconfirm Hreschedule phone c0 d inb.
  subst c0 d inb. unfold conversation_or_new, dates_after_lookup, arriving.
  unfold HandleInbound, serve, sms_webhook, sms_webhook_try, arriving.
  rewrite Hbody. run. rewrite Hconfirm, Hreschedule. fold phone.
  unfold converse, get_or_create, conversation_of. run.
  destruct (conversations st !! phone) as [c|] eqn:Hc; run;
    rewrite ?lookup_insert_eq, ?Hc; run; rewrite ?lookup_insert_eq; run.
  all: match goal with
       | |- context [generateAIResponse ?m ?k ?e ?s] =>
           destruct (generateAIResponse_value m k e s) as (new & -> & Hd & Hk)
       end; run.
  all: match goal with
       | |- context [sendSMS _ ?msg _ _] => set (r := msg) in *
       end.
  all: exists r; split; [reflexivity|]; clearbody r.
  all: destruct (twilio_create ext (mkSmsRequest r (TWILIO_PHONE_NUMBER ext) phone))
         as [e|sid] eqn:Hsms.
  all: first [rewrite (sendSMS_rejected _ _ _ _ _ Hsms)
             |rewrite (sendSMS_resolved _ _ _ _ _ Hsms)];
       run; rewrite ?lookup_insert_eq; run;
       rewrite ?insert_insert_eq, !dispatched_app, Hd, ?app_nil_r, <-?app_assoc;
       by repeat split.
Qed.

(** X10: on the non-keyword path a failing completion call goes unnoticed
    by the transport.  The customer is sent the fixed fallback text; when the
    transport takes it the request is answered 200 and the fallback text is
    recorded as the outbound reply after the inbound message, and when the
    transport rejects it the answer is 500 and only the inbound message is
    recorded. *)
Theorem X10_webhook_falls_back (req : WebhookRequest) (text : string)
    (ext : Externals) (st : St) :
  Body req = Some text →
  Text.includes (Text.toUpperCase (unicode_upper ext) text) "CONFIRM" = false →
  Text.includes (Text.toUpperCase (unicode_upper ext) text) "RESCHEDULE" = false →
  completion_failed
    (openai_create ext
       (completion_request text
          (mkContext (Some (context (conversation_or_new st (From req) (clock ext 0)))) None))) →
  let after := HandleInbound req ext st in
  let phone := From req in
  dispatched (trace after) = dispatched (trace st) ++ [(phone, fallbackMessage)]
  ∧ ∃ received,
      match twilio_create ext
              (mkSmsRequest fallbackMessage (TWILIO_PHONE_NUMBER ext) phone) with
      | DeliveryRejected _ =>
          statusCode (res after) = 500
          ∧ transcript after phone
            = transcript st phone ++ [mkMessage inbound text received]
      | DeliveryResolved _ =>
          statusCode (res after) = 200
          ∧ ∃ sent,
              transcript after phone
              = transcript st phone
                  ++ [mkMessage inbound text received;
                      mkMessage outbound fallbackMessage sent]
      end.
Proof.
  intros Hbody Hconfirm Hreschedule Hfailed after phone. subst after.
  destruct (HandleInbound_reply req text ext st Hbody Hconfirm Hreschedule)
    as (reply & Hreply & Hsent & Hstore).
  fold phone in Hsent, Hstore, Hfailed, Hreply.
  assert (reply = fallbackMessage) as ->.
  { rewrite Hreply. unfold reply_text.
    by destruct (openai_create ext _) as [e|[|[first|] others]]. }
  split; [exact Hsent|]. eexists.
  destruct (twilio_create ext _); destruct Hstore as [-> Hstore];
    (split; [reflexivity|]); unfold transcript at 1; rewrite Hstore, lookup_insert_eq;
    cbn [push_message messages]; rewrite conversation_or_new_messages.
  - reflexivity.
  - eexists. by rewrite <-app_assoc.
Qed.

Lemma X10_webhook_falls_back_witness :
  let req := mkWebhookRequest "+15551234567" (Some "what are your hours") in
  let after := HandleInbound req ext_completion_down with_jane in
  dispatched (trace after) = dispatched (trace with_jane) ++ [("+15551234567", fallbackMessage)]
  ∧ ∃ received,
      match twilio_create ext_completion_down
              (mkSmsRequest fallbackMessage (TWILIO_PHONE_NUMBER ext_completion_down)
                 "+15551234567") with
      | DeliveryRejected _ =>
          statusCode (res after) = 500
          ∧ transcript after "+15551234567"
            = transcript with_jane "+15551234567"
                ++ [mkMessage inbound "what are your hours" received]
      | DeliveryResolved _ =>
          statusCode (res after) = 200
          ∧ ∃ sent,
              transcript after "+15551234567"
              = transcript with_jane "+15551234567"
                  ++ [mkMessage inbound "what are your hours" received;
                      mkMessage outbound fallbackMessage sent]
      end.
Proof.
  apply (X10_webhook_falls_back
           (mkWebhookRequest "+15551234567" (Some "what are your hours"))
           "what are your hours" ext_completion_down with_jane).
  - reflexivity.
  - vm_compute. reflexivity.
  - vm_compute. reflexivity.
  - vm_compute. exact I.
Defined.

(** X11: the composer falls back on a failure only, not on an empty reply.
    When the completion resolves with a first choice that trims to nothing (it
    is empty or holds nothing but white space), the non-keyword path hands the
    empty text to the transport, and records it as the outbound reply when the
    transport takes it. *)
Theorem X11_blank_completion_sends_empty_text (req : WebhookRequest) (text : string)
    (ext : Externals) (st : St) (first : string) (others : list (option string)) :
  Body req = Some text →
  Text.includes (Text.toUpperCase (unicode_upper ext) text) "CONFIRM" = false →
  Text.includes (Text.toUpperCase (unicode_upper ext) text) "RESCHEDULE" = false →
  openai_create ext
    (completion_request text
       (mkContext (Some (context (conversation_or_new st (From req) (clock ext 0)))) None))
    = CompletionResolved (Some first :: others) →
  Text.trim first = "" →
  let after := HandleInbound req ext st in
  let phone := From req in
  dispatched (trace after) = dispatched (trace st) ++ [(phone, "")]
  ∧ (∀ sid, twilio_create ext (mkSmsRequest "" (TWILIO_PHONE_NUMBER ext) phone)
            = DeliveryResolved sid →
       ∃ m, last (transcript after phone) = Some m
            ∧ direction m = outbound ∧ message m = "").
Proof.
  intros Hbody Hconfirm Hreschedule Hresolved Hblank after phone. subst after.
  destruct (HandleInbound_reply req text ext st Hbody Hconfirm Hreschedule)
    as (reply & Hreply & Hsent & Hstore).
  fold phone in Hsent, Hstore, Hresolved, Hreply.
  assert (reply = "") as ->.
  { rewrite Hreply. unfold reply_text. by rewrite Hresolved. }
  split; [exact Hsent|]. intros sid Hsid. rewrite Hsid in Hstore.
  destruct Hstore as [_ Hstore]. unfold transcript. rewrite Hstore, lookup_insert_eq.
  cbn [push_message messages]. rewrite last_snoc. by eexists.
Qed.

Lemma X11_blank_completion_sends_empty_text_witness :
  let req := mkWebhookRequest "+15551234567" (Some "what are your hours") in
  let after := HandleInbound req ext_blank_reply with_jane in
  dispatched (trace after) = dispatched (trace with_jane) ++ [("+15551234567", "")]
  ∧ (∀ sid, twilio_create ext_blank_reply
              (mkSmsRequest "" (TWILIO_PHONE_NUMBER ext_blank_reply) "+15551234567")
            = DeliveryResolved sid →
       ∃ m, last (transcript after "+15551234567") = Some m
            ∧ direction m = outbound ∧ message m = "").
Proof.
  apply (X11_blank_completion_sends_empty_text
           (mkWebhookRequest "+15551234567" (Some "what are your hours"))
           "what are your hours" ext_blank_reply with_jane "   " []).
  - reflexivity.
  - vm_compute. reflexivity.
  - vm_compute. reflexivity.
  - reflexivity.
  - reflexivity.
Defined.

(** X12: what the completion API is asked on the non-keyword path.  The
    request names the model [gpt-3.5-turbo] with at most 50 tokens and holds
    two messages: a system message, which is the fixed instructions followed,
    when the conversation's context label is not empty, by
    [Business context: ] and the label ([General inquiry] for a number the Map
    did not hold), and a user message, which is the body as received. *)
Theorem X12_webhook_prompt (req : WebhookRequest) (text : string)
    (ext : Externals) (st : St) :
  Body req = Some text →
  Text.includes (Text.toUpperCase (unicode_upper ext) text) "CONFIRM" = false →
  Text.includes (Text.toUpperCase (unicode_upper ext) text) "RESCHEDULE" = false →
  let label := context (conversation_or_new st (From req) (clock ext 0)) in
  ∃ system,
    composed (trace (HandleInbound req ext st))
      = composed (trace st)
          ++ [mkChatRequest "gpt-3.5-turbo"
                [mkChatMessage "system" system; mkChatMessage "user" text] 50 7]
    ∧ system
      = systemPrompt (mkContext None None)
          +:+ (if decide (label = "") then "" else "Business context: " +:+ label)
    ∧ (conversations st !! From req = None →
       system = systemPrompt (mkContext None None) +:+ "Business context: General inquiry").
Proof.
  intros Hbody Hconfirm Hreschedule label.
  destruct (HandleInbound_cases req ext st) as (new & -> & Hcases).
  cbv zeta in Hcases.
  destruct Hcases as [(? & _)|[(text' & fixed & ? & [?|?] & _)
                     |(text' & reply & Hbody' & _ & _ & _ & Hk & _)]]; try congruence.
  assert (text' = text) as -> by congruence. fold label in Hk.
  rewrite composed_app, Hk. eexists. split; [reflexivity|]. split.
  - destruct label as [|c rest]; reflexivity.
  - intros Hnew. subst label. unfold conversation_or_new. by rewrite Hnew.
Qed.

Lemma X12_webhook_prompt_witness :
  let req := mkWebhookRequest "+15551234567" (Some "what are your hours") in
  let label := context (conversation_or_new with_jane "+15551234567" (clock ext_up 0)) in
  ∃ system,
    composed (trace (HandleInbound req ext_up with_jane))
      = composed (trace with_jane)
          ++ [mkChatRequest "gpt-3.5-turbo"
                [mkChatMessage "system" system; mkChatMessage "user" "what are your hours"]
                50 7]
    ∧ system
      = systemPrompt (mkContext None None)
          +:+ (if decide (label = "") then "" else "Business context: " +:+ label)
    ∧ (conversations with_jane !! "+15551234567" = None →
       system = systemPrompt (mkContext None None) +:+ "Business context: General inquiry").
Proof.
  apply (X12_webhook_prompt
           (mkWebhookRequest "+15551234567" (Some "what are your hours"))
           "what are your hours" ext_up with_jane).
  - reflexivity.
  - vm_compute. reflexivity.
  - vm_compute. reflexivity.
Defined.

(** ** Routes 3 and 4, inspection *)

Lemma GetConversation_run (phone : string) (ext : Externals) (st : St) :
  GetConversation phone ext st =
    mkSt (conversations st) (trace st)
         (match conversations st !! phone with
          | Some c => mkResponse 200 None (Some (JsonConversation c))
          | None => mkResponse 404 None (Some (JsonError "Conversation not found"))
          end) 0.
Proof.
  unfold GetConversation, serve, get_conversation, arriving. run.
  by destruct (conversations st !! phone).
Qed.

(** X13: looking a sender up after a webhook request, for a sender whose
    number is posted as a text.  Route 3 changes neither the Map nor the
    trace.  After a request on which no keyword test
    fired it answers 200 with the sender's conversation, the inbound message in
    its transcript; after a request without a body text or with a keyword,
    from a number the Map did not hold, it answers 404: such a sender stays
    unknown. *)
Theorem X13_lookup_after_webhook (req : WebhookRequest) (ext ext' : Externals) (st : St) :
  let after := HandleInbound req ext st in
  let seen := GetConversation (From req) ext' after in
  conversations seen = conversations after
  ∧ trace seen = trace after
  ∧ (∀ text,
       Body req = Some text →
       Text.includes (Text.toUpperCase (unicode_upper ext) text) "CONFIRM" = false →
       Text.includes (Text.toUpperCase (unicode_upper ext) text) "RESCHEDULE" = false →
       ∃ c received,
         res seen = mkResponse 200 None (Some (JsonConversation c))
         ∧ mkMessage inbound text received ∈ messages c)
  ∧ (conversations st !! From req = None →
     (Body req = None
      ∨ ∃ text, Body req = Some text
                ∧ (Text.includes (Text.toUpperCase (unicode_upper ext) text) "CONFIRM" = true
                   ∨ Text.includes (Text.toUpperCase (unicode_upper ext) text) "RESCHEDULE" = true)) →
     res seen = mkResponse 404 None (Some (JsonError "Conversation not found"))).
Proof.
  cbv zeta. rewrite GetConversation_run. cbn [conversations trace res].
  split; [done|]. split; [done|].
  destruct (HandleInbound_cases req ext st) as (new & _ & Hcases). cbv zeta in Hcases.
  destruct Hcases as [(Hbody & -> & _)|[(text & fixed & Hbody & Hkey & -> & _)
                     |(text & reply & Hbody & Hc & Hr & _ & _ & Hstore)]].
  - split; [congruence|]. by intros ->.
  - split; [intros text' ? ? ?; destruct Hkey; congruence|]. by intros ->.
  - split.
    + intros text' Hbody' _ _. assert (text' = text) as -> by congruence.
      destruct Hstore as [[_ ->]|[_ ->]]; rewrite lookup_insert_eq;
        do 2 eexists; (split; [reflexivity|]); cbn [push_message messages];
        rewrite !elem_of_app, !list_elem_of_singleton; eauto.
    + intros _ [?|(text' & ? & [?|?])]; congruence.
Qed.

(** ** Sequences of requests *)

(** What one request of any kind does to the transcript stored for a
    number: nothing; or, a trigger for that number, a fresh transcript with at
    most the outbound greeting; or, a webhook request from that number on
    which no keyword test fires, the inbound message appended, followed by the
    outbound reply when the transport took it. *)
Lemma handle_transcript_cases (r : Request) (ext : Externals) (st : St) (phone : string) :
  let after := handle r ext st in
  transcript after phone = transcript st phone
  ∨ (triggers phone r
     ∧ (transcript after phone = []
        ∨ ∃ reply sent, transcript after phone = [mkMessage outbound reply sent]))
  ∨ (∃ req text received,
       r = PostSmsWebhook req ∧ From req = phone ∧ Body req = Some text
       ∧ Text.includes (Text.toUpperCase (unicode_upper ext) text) "CONFIRM" = false
       ∧ Text.includes (Text.toUpperCase (unicode_upper ext) text) "RESCHEDULE" = false
       ∧ (transcript after phone
          = transcript st phone ++ [mkMessage inbound text received]
          ∨ ∃ reply sent,
              transcript after phone
              = transcript st phone
                  ++ [mkMessage inbound text received; mkMessage outbound reply sent])).
Proof.
  cbv zeta. destruct r as [req|req|asked|].
  - change (handle (PostInitiateContact req) ext st) with (InitiateContact req ext st).
    destruct (InitiateContact_run req ext st) as (reply & new & _ & _ & ->). cbv zeta.
    destruct (decide (customer_phone req = phone)) as [<-|Hne].
    + right. left. split; [done|].
      destruct (twilio_create ext _); rewrite transcript_insert; cbn; eauto.
    + left. unfold transcript.
      destruct (twilio_create ext _); cbn [conversations]; by rewrite lookup_insert_ne.
  - change (handle (PostSmsWebhook req) ext st) with (HandleInbound req ext st).
    destruct (HandleInbound_cases req ext st) as (new & _ & Hcases). cbv zeta in Hcases.
    destruct Hcases as [(_ & Hsame & _)|[(text & fixed & _ & _ & Hsame & _)
                       |(text & reply & Hbody & Hc & Hr & _ & _ & Hstore)]].
    1,2: left; unfold transcript; by rewrite Hsame.
    destruct (decide (From req = phone)) as [<-|Hne].
    + right. right. exists req, text. eexists. do 5 (split; [done|]).
      unfold transcript at 1 3.
      destruct Hstore as [[_ ->]|[_ ->]]; rewrite lookup_insert_eq;
        cbn [push_message messages]; rewrite conversation_or_new_messages, <-?app_assoc;
        eauto.
    + left. unfold transcript.
      destruct Hstore as [[_ ->]|[_ ->]]; by rewrite lookup_insert_ne.
  - change (handle (GetConversationOf asked) ext st) with (GetConversation asked ext st).
    rewrite GetConversation_run. by left.
  - by left.
Qed.

(** No request removes a number from the Map. *)
Lemma handle_keeps_numbers (r : Request) (ext : Externals) (st : St) :
  dom (conversations st) ⊆ dom (conversations (handle r ext st)).
Proof.
  destruct r as [req|req|asked|].
  - change (handle (PostInitiateContact req) ext st) with (InitiateContact req ext st).
    destruct (InitiateContact_run req ext st) as (reply & new & _ & _ & ->). cbv zeta.
    destruct (twilio_create ext _); apply dom_insert_subseteq.
  - change (handle (PostSmsWebhook req) ext st) with (HandleInbound req ext st).
    destruct (HandleInbound_cases req ext st) as (new & _ & Hcases). cbv zeta in Hcases.
    destruct Hcases as [(_ & -> & _)|[(text & fixed & _ & _ & -> & _)
                       |(text & reply & _ & _ & _ & _ & _ & [[_ ->]|[_ ->]])]];
      try done; apply dom_insert_subseteq.
  - change (handle (GetConversationOf asked) ext st) with (GetConversation asked ext st).
    by rewrite GetConversation_run.
  - done.
Qed.

(** X15: conversations are never deleted.  After any sequence of requests
    of the four routes, with any answers from outside, every number the Map
    held is still in the Map. *)
Theorem X15_numbers_are_never_removed (requests : list (Request * Externals)) (st : St) :
  dom (conversations st) ⊆ dom (conversations (run_all requests st)).
Proof.
  revert st. induction requests as [|[r ext] later IH]; intros st; [done|].
  cbn [run_all]. etrans; [apply handle_keeps_numbers|apply IH].
Qed.

(** X16: transcripts are append-only between triggers.  Over any sequence
    of requests that holds no trigger for a number, the transcript stored for
    that number at the end starts with the transcript stored at the start. *)
Theorem X16_transcripts_grow_between_triggers (requests : list (Request * Externals))
    (st : St) (phone : string) :
  Forall (fun served => ¬ triggers phone served.1) requests →
  transcript st phone `prefix_of` transcript (run_all requests st) phone.
Proof.
  revert st. induction requests as [|[r ext] later IH]; intros st Hnone; [done|].
  apply Forall_cons in Hnone as [Hr Hlater]. cbn [run_all fst] in *.
  etrans; [|apply IH, Hlater].
  destruct (handle_transcript_cases r ext st phone)
    as [->|[[Htrigger _]|(req & text & received & _ & _ & _ & _ & _ & [->|(? & ? & ->)])]];
    [done|done|by apply prefix_app_r..].
Qed.

Lemma X16_transcripts_grow_between_triggers_witness :
  transcript with_jane "+15551234567"
    `prefix_of` transcript (run_all (tail sample_traffic) with_jane) "+15551234567".
Proof.
  apply (X16_transcripts_grow_between_triggers (tail sample_traffic) with_jane
           "+15551234567").
  repeat constructor; simpl; tauto.
Defined.

(** What the state reached from start-up keeps, request after request. *)
Lemma run_all_keeps (P : list Message → Prop) (requests : list (Request * Externals))
    (st : St) :
  (∀ r ext st' phone,
     (∀ p, P (transcript st' p)) → P (transcript (handle r ext st') phone)) →
  (∀ phone, P (transcript st phone)) →
  ∀ phone, P (transcript (run_all requests st) phone).
Proof.
  intros Hstep. revert st. induction requests as [|[r ext] later IH]; intros st Hst; [done|].
  cbn [run_all]. apply IH. intros phone. by apply Hstep.
Qed.

(** Where the test of the webhook stays quiet, the text does not spell the
    keyword. *)
Lemma quiet_test_spells_nothing (beyond : string → string) (word body : string) :
  ascii_text word = true →
  Text.includes (Text.toUpperCase beyond body) (capitals word) = false →
  Text.includes (capitals body) (capitals word) = false.
Proof.
  intros Hword Hquiet. destruct (Text.includes (capitals body) _) eqn:Hspelled; [|done].
  apply (spelled_keyword_fires beyond) in Hspelled; [congruence|done].
Qed.

Lemma plain_spells_nothing (ext : Externals) (text : string) :
  plain ext text →
  Text.includes (capitals text) "CONFIRM" = false
  ∧ Text.includes (capitals text) "RESCHEDULE" = false.
Proof.
  intros [Hc Hr]. split.
  - by apply (quiet_test_spells_nothing (unicode_upper ext) "confirm").
  - by apply (quiet_test_spells_nothing (unicode_upper ext) "reschedule").
Qed.

(** X18: keyword messages are never recorded.  In every state the process
    reaches from start-up, every inbound message of every transcript is one
    that spells neither [confirm] nor [reschedule], in whatever letter case:
    confirmations and reschedule requests leave no entry in any transcript. *)
Theorem X18_keywords_are_never_recorded (requests : list (Request * Externals))
    (phone : string) :
  forallb free_of_keywords (transcript (run_all requests startup) phone) = true.
Proof.
  apply (run_all_keeps (fun l => forallb free_of_keywords l = true)); [|done].
  intros r ext st p Hst.
  destruct (handle_transcript_cases r ext st p)
    as [->|[[_ [->|(? & ? & ->)]]
           |(req & text & received & _ & _ & _ & Hc & Hr & [->|(? & ? & ->)])]];
    [done|done|done|..];
    destruct (plain_spells_nothing ext text (conj Hc Hr)) as [Hc' Hr'];
    rewrite forallb_app, Hst; cbn; unfold free_of_keywords; cbn;
    by rewrite Hc', Hr'.
Qed.

(** One accepted exchange appends the inbound message and the reply. *)
Lemma HandleInbound_accepted (req : WebhookRequest) (text : string)
    (ext : Externals) (st : St) :
  Body req = Some text → plain ext text → accepts_all ext →
  ∃ reply received sent,
    transcript (HandleInbound req ext st) (From req)
    = transcript st (From req)
        ++ [mkMessage inbound text received; mkMessage outbound reply sent].
Proof.
  intros Hbody [Hconfirm Hreschedule] Haccepts.
  destruct (HandleInbound_reply req text ext st Hbody Hconfirm Hreschedule)
    as (reply & _ & _ & Hstore).
  destruct (Haccepts (mkSmsRequest reply (TWILIO_PHONE_NUMBER ext) (From req)))
    as [sid Hsid].
  rewrite Hsid in Hstore. destruct Hstore as [_ Hstore].
  exists reply. do 2 eexists. unfold transcript at 1. rewrite Hstore, lookup_insert_eq.
  cbn [push_message messages]. by rewrite conversation_or_new_messages, <-app_assoc.
Qed.

(** X19: exchanges add up.  When a number sends any list of bodies on which
    no keyword test fires, one request after the other, and the transport
    takes every reply, the transcript stored for the number grows by two
    messages per body: inbound, outbound, inbound, outbound and so on, the
    inbound texts being the bodies in the order sent. *)
Theorem X19_exchanges_add_up (phone : string) (bodies : list (string * Externals)) (st : St) :
  Forall (fun sent => plain sent.2 sent.1 ∧ accepts_all sent.2) bodies →
  ∃ added,
    transcript (run_all (messages_from phone bodies) st) phone
    = transcript st phone ++ added
    ∧ direction <$> added = bodies ≫= (fun _ => [inbound; outbound])
    ∧ message <$> filter (fun m => direction m = inbound) added = bodies.*1
    ∧ length added = 2 * length bodies.
Proof.
  revert st. induction bodies as [|[text ext] later IH]; intros st Hall.
  - exists []. by rewrite app_nil_r.
  - apply Forall_cons in Hall as [[Hplain Haccepts] Hlater]. cbn [fst snd] in *.
    cbn [messages_from fmap list_fmap run_all fst snd].
    change (handle (PostSmsWebhook ?r) ?e ?s) with (HandleInbound r e s).
    destruct (HandleInbound_accepted (mkWebhookRequest phone (Some text)) text ext st
                eq_refl Hplain Haccepts) as (reply & received & sent & Hstep).
    cbn [From] in Hstep.
    destruct (IH (HandleInbound (mkWebhookRequest phone (Some text)) ext st) Hlater)
      as (added & Hrun & Hdirs & Htexts & Hlen).
    unfold messages_from in Hrun.
    exists ([mkMessage inbound text received; mkMessage outbound reply sent] ++ added).
    rewrite Hrun, Hstep, <-app_assoc. split; [done|].
    split; [by rewrite fmap_app, Hdirs|]. split.
    + rewrite filter_app, fmap_app, Htexts. reflexivity.
    + rewrite length_app, Hlen. cbn. lia.
Qed.

Lemma X19_exchanges_add_up_witness :
  ∃ added,
    transcript
      (run_all (messages_from "+15551234567"
                  [("hi", ext_up); ("what are your hours", ext_completion_down)])
         with_jane) "+15551234567"
    = transcript with_jane "+15551234567" ++ added
    ∧ direction <$> added
      = [("hi", ext_up); ("what are your hours", ext_completion_down)]
          ≫= (fun _ => [inbound; outbound])
    ∧ message <$> filter (fun m => direction m = inbound) added
      = [("hi", ext_up); ("what are your hours", ext_completion_down)].*1
    ∧ length added = 2 * length [("hi", ext_up); ("what are your hours", ext_completion_down)].
Proof.
  apply (X19_exchanges_add_up "+15551234567"
           [("hi", ext_up); ("what are your hours", ext_completion_down)] with_jane).
  repeat constructor; simpl; try reflexivity; intros sms; by exists "SM0001".
Defined.

(** X20: the trigger's context carries over.  After a trigger for a number
    posted as a text, whether its greeting could be delivered or not, the next webhook request
    from that number on which no keyword test fires asks the completion API
    with the trigger's context label as business context and the body as user
    message, and the conversation keeps the trigger's name and context. *)
Theorem X20_trigger_context_carries_over (req : InitiateRequest) (text : string)
    (ext1 ext2 : Externals) (st : St) :
  plain ext2 text →
  let st1 := InitiateContact req ext1 st in
  let st2 :=
    HandleInbound (mkWebhookRequest (customer_phone req) (Some text)) ext2 st1 in
  composed (trace st2)
    = composed (trace st1)
        ++ [completion_request text (mkContext (Some (trigger_context req)) None)]
  ∧ ∃ c, conversations st2 !! customer_phone req = Some c
         ∧ name c = customer_name req ∧ context c = trigger_context req
         ∧ started c = clock ext1 0.
Proof.
  intros [Hconfirm Hreschedule] st1 st2.
  assert (∃ c1, conversations st1 !! customer_phone req = Some c1
                ∧ name c1 = customer_name req ∧ context c1 = trigger_context req
                ∧ started c1 = clock ext1 0) as (c1 & Hc1 & Hname & Hcontext & Hstarted).
  { subst st1. destruct (InitiateContact_run req ext1 st) as (reply & new & _ & _ & ->).
    cbv zeta. destruct (twilio_create ext1 _); cbn [conversations];
      rewrite lookup_insert_eq; by eexists. }
  subst st2.
  destruct (HandleInbound_cases (mkWebhookRequest (customer_phone req) (Some text)) ext2 st1)
    as (new & -> & Hcases). cbv zeta in Hcases. cbn [From Body] in Hcases.
  destruct Hcases as [(? & _)|[(text' & fixed & Hbody' & [?|?] & _)
                     |(text' & reply & Hbody' & _ & _ & _ & Hk & Hstore)]];
    try congruence.
  assert (text' = text) as -> by congruence.
  unfold conversation_or_new in Hk, Hstore. rewrite Hc1 in Hk, Hstore.
  rewrite composed_app, Hk, Hcontext. split; [reflexivity|].
  destruct Hstore as [[_ ->]|[_ ->]]; rewrite lookup_insert_eq; by eexists.
Qed.

Lemma X20_trigger_context_carries_over_witness :
  let req := mkInitiateRequest "+15557654321" "Omar" "motor repair" in
  let st1 := InitiateContact req ext_transport_down with_jane in
  let st2 :=
    HandleInbound (mkWebhookRequest "+15557654321" (Some "is Tuesday ok?")) ext_up st1 in
  composed (trace st2)
    = composed (trace st1)
        ++ [completion_request "is Tuesday ok?" (mkContext (Some "motor repair") None)]
  ∧ ∃ c, conversations st2 !! "+15557654321" = Some c
         ∧ name c = "Omar" ∧ context c = "motor repair"
         ∧ started c = clock ext_transport_down 0.
Proof.
  apply (X20_trigger_context_carries_over
           (mkInitiateRequest "+15557654321" "Omar" "motor repair") "is Tuesday ok?"
           ext_transport_down ext_up with_jane).
  split; vm_compute; reflexivity.
Defined.

(** X21: where a webhook 500 comes from.  A request that has a body text
    and is answered 500 had its one text rejected by the transport; the
    transport's error is then written to the console twice, by [sendSMS] and by
    the route's own [catch], as the last two lines of the trace. *)
Theorem X21_webhook_500_is_a_rejected_dispatch (req : WebhookRequest) (text : string)
    (ext : Externals) (st : St) :
  Body req = Some text →
  statusCode (res (HandleInbound req ext st)) = 500 →
  ∃ e sent earlier,
    twilio_create ext (mkSmsRequest sent (TWILIO_PHONE_NUMBER ext) (From req))
      = DeliveryRejected e
    ∧ trace (HandleInbound req ext st)
      = earlier ++ [SmsCall (mkSmsRequest sent (TWILIO_PHONE_NUMBER ext) (From req));
                    ConsoleError "Twilio SMS error:" e;
                    ConsoleError "Error handling incoming SMS:" e].
Proof.
  intros Hbody.
  destruct (Text.includes (Text.toUpperCase (unicode_upper ext) text) "CONFIRM") eqn:Hconfirm.
  { rewrite (HandleInbound_keyword req text confirmMessage ext st Hbody
               (or_introl (conj Hconfirm eq_refl))).
    cbv zeta. destruct (twilio_create ext _) as [e|sid] eqn:Hsms;
      cbn [res statusCode trace]; [|discriminate].
    intros _. exists e, confirmMessage.
    exists (trace st ++ [ConsoleLog ("Incoming SMS from " +:+ From req +:+ ": " +:+ text)]).
    split; [exact Hsms|]. by rewrite <-app_assoc. }
  destruct (Text.includes (Text.toUpperCase (unicode_upper ext) text) "RESCHEDULE") eqn:Hreschedule.
  { rewrite (HandleInbound_keyword req text rescheduleMessage ext st Hbody
               (or_intror (conj Hconfirm (conj Hreschedule eq_refl)))).
    cbv zeta. destruct (twilio_create ext _) as [e|sid] eqn:Hsms;
      cbn [res statusCode trace]; [|discriminate].
    intros _. exists e, rescheduleMessage.
    exists (trace st ++ [ConsoleLog ("Incoming SMS from " +:+ From req +:+ ": " +:+ text)]).
    split; [exact Hsms|]. by rewrite <-app_assoc. }
  destruct (HandleInbound_converse req text ext st Hbody Hconfirm Hreschedule)
    as (reply & new & _ & _ & ->).
  cbv zeta. destruct (twilio_create ext _) as [e|sid] eqn:Hsms;
    cbn [res statusCode trace]; [|discriminate].
  intros _. exists e, reply.
  exists (trace st
          ++ [ConsoleLog ("Incoming SMS from " +:+ From req +:+ ": " +:+ text)] ++ new).
  split; [exact Hsms|]. by rewrite <-!app_assoc.
Qed.

Lemma X21_webhook_500_is_a_rejected_dispatch_witness :
  let req := mkWebhookRequest "+15551234567" (Some "confirm") in
  ∃ e sent earlier,
    twilio_create ext_transport_down
      (mkSmsRequest sent (TWILIO_PHONE_NUMBER ext_transport_down) "+15551234567")
      = DeliveryRejected e
    ∧ trace (HandleInbound req ext_transport_down with_jane)
      = earlier ++ [SmsCall (mkSmsRequest sent (TWILIO_PHONE_NUMBER ext_transport_down)
                               "+15551234567");
                    ConsoleError "Twilio SMS error:" e;
                    ConsoleError "Error handling incoming SMS:" e].
Proof.
  apply (X21_webhook_500_is_a_rejected_dispatch
           (mkWebhookRequest "+15551234567" (Some "confirm")) "confirm"
           ext_transport_down with_jane).
  - reflexivity.
  - vm_compute. reflexivity.
Defined.

(** The sample traffic, run: Jane's transcript holds the greeting and one
    exchange, her confirmation left no entry, and the stranger's message is
    recorded without a reply. *)
Example sample_traffic_run :
  let st := run_all sample_traffic startup in
  (fun m => (direction m, message m)) <$> transcript st "+15551234567"
    = [(outbound, "Hello! How can we help?"); (inbound, "Do you do shutters?");
       (outbound, "Hello! How can we help?")]
  ∧ (fun m => (direction m, message m)) <$> transcript st "+15557654321"
    = [(inbound, "hello?")]
  ∧ dispatched (trace st)
    = [("+15551234567", "Hello! How can we help?");
       ("+15551234567", "Hello! How can we help?");
       ("+15551234567", confirmMessage);
       ("+15557654321", "Hello! How can we help?")]
  ∧ statusCode (res st) = 200.
Proof. cbv zeta. repeat split; vm_compute; reflexivity. Qed.

(** Letters beyond ASCII in a body.  With tables that turn the dotless i
    into [I] and the long s into [S], a body spelled with them fires the
    keyword tests: the fixed text goes out, no completion call is made and a
    new sender gets no conversation. *)
Example dotless_confirm_is_a_keyword :
  let req := mkWebhookRequest "+15557654321" (Some ("conf" +:+ dotless_i +:+ "rm")) in
  let after := HandleInbound req ext_up startup in
  dispatched (trace after) = [("+15557654321", confirmMessage)]
  ∧ composed (trace after) = []
  ∧ conversations after !! "+15557654321" = None.
Proof. cbv zeta. repeat split; vm_compute; reflexivity. Qed.

Example long_s_reschedule_is_a_keyword :
  let req :=
    mkWebhookRequest "+15551234567" (Some ("Can we re" +:+ long_s +:+ "chedule?")) in
  let after := HandleInbound req ext_up with_jane in
  dispatched (trace after) = [("+15551234567", rescheduleMessage)]
  ∧ transcript after "+15551234567" = transcript with_jane "+15551234567".
Proof. cbv zeta. repeat split; vm_compute; reflexivity. Qed.
